(** * Binary discovery of the oxc VS Code extension

    A shallow embedding of [client/findBinary.ts] and of the launch
    descriptor builder exercised by [tests/unit/lsp_helper.spec.ts].

    JavaScript strings are Rocq strings holding their UTF-8 bytes.  The
    string operations the sources use ([endsWith] and [slice] with an
    ASCII suffix, template literals, [trim]) act on these bytes as they
    act on the UTF-16 code units of a well-formed string.

    What [JSON.parse] returns is a value of [Js.Json]; reading a property
    of it looks at the own members first and then at the built-in
    prototypes, which are taken as the language defines them.

    Everything outside the module under study is an explicit parameter:
    the [node:path] module is a [PathModule], the editor host, the file
    system, [require.resolve], [JSON.parse] and [spawnSync] are fields of
    an [Env].  Effects are threaded through a small state-and-exception
    monad whose state holds the module-level memo and the log of the
    external calls performed so far. *)

From Stdlib Require Import Ascii.
From Stdlib Require String.
From Stdlib Require Import ZArith Lia Floats.
From stdpp Require Import base strings list gmap.

Local Open Scope Z_scope.
Local Open Scope nat_scope.

(** ** JavaScript built-ins on strings and arrays *)

Module Js.

(** [s.endsWith(suffix)] *)
Definition endsWith (s suffix : string) : bool :=
  let n := String.length s in
  let m := String.length suffix in
  (m <=? n) && String.eqb (String.substring (n - m) m s) suffix.

(** [s.slice(0, -k)] for a positive [k]: everything but the last [k]
    characters; the empty string when [s] is shorter than [k]. *)
Definition slice_to_minus (k : nat) (s : string) : string :=
  String.substring 0 (String.length s - k) s.

(** The code points [String.prototype.trim] removes (WhiteSpace and
    LineTerminator of ECMAScript), by the length of their UTF-8 encoding.
    One byte: TAB, LF, VT, FF, CR, SPACE. *)
Definition is_white (c : ascii) : bool := Ascii.is_space c.

(** Two bytes: U+00A0, encoded C2 A0. *)
Definition is_white2 (a b : ascii) : bool :=
  (nat_of_ascii a =? 194) && (nat_of_ascii b =? 160).

(** Three bytes: U+1680 (E1 9A 80), U+2000 to U+200A (E2 80 80 to 8A),
    U+2028 and U+2029 (E2 80 A8, A9), U+202F (E2 80 AF), U+205F
    (E2 81 9F), U+3000 (E3 80 80) and U+FEFF (EF BB BF). *)
Definition is_white3 (a b c : ascii) : bool :=
  let '(x, y, z) := (nat_of_ascii a, nat_of_ascii b, nat_of_ascii c) in
  (x =? 225) && (y =? 154) && (z =? 128)
  || (x =? 226) && (y =? 128)
     && ((128 <=? z) && (z <=? 138) || (z =? 168) || (z =? 169) || (z =? 175))
  || (x =? 226) && (y =? 129) && (z =? 159)
  || (x =? 227) && (y =? 128) && (z =? 128)
  || (x =? 239) && (y =? 187) && (z =? 191).

(** Drop the white-space code points a string starts with; the three
    tests say what a code point of one, two and three bytes is. *)
Fixpoint drop_white (w1 : ascii → bool) (w2 : ascii → ascii → bool)
    (w3 : ascii → ascii → ascii → bool) (s : string) : string :=
  match s with
  | String a rest =>
      if w1 a then drop_white w1 w2 w3 rest
      else
        match rest with
        | String b rest2 =>
            if w2 a b then drop_white w1 w2 w3 rest2
            else
              match rest2 with
              | String c rest3 =>
                  if w3 a b c then drop_white w1 w2 w3 rest3 else s
              | EmptyString => s
              end
        | EmptyString => s
        end
  | EmptyString => s
  end.

(** [s.trimStart()] *)
Definition trimStart (s : string) : string :=
  drop_white is_white is_white2 is_white3 s.

(** [s.trimEnd()]: the same from the other end, where the bytes of a
    code point come last byte first.  In well-formed UTF-8, which is what
    decoding the output of a child as [utf8] gives, the last bytes
    determine the last code point: a byte below 128 is one by itself, and
    the first byte of each longer pattern is a leading byte. *)
Definition trimEnd (s : string) : string :=
  String.rev (drop_white is_white (λ b a, is_white2 a b)
                (λ c b a, is_white3 a b c) (String.rev s)).

(** [s.trim()] *)
Definition trim (s : string) : string := trimEnd (trimStart s).

(** [s.split(sep)] for a one-character separator: the pieces between the
    separators, empty pieces included.  [cur] is the piece being read,
    last character first. *)
Fixpoint split_go (sep : ascii) (cur : string) (s : string) : list string :=
  match s with
  | EmptyString => [String.rev cur]
  | String c s' =>
      if Ascii.eqb c sep then String.rev cur :: split_go sep "" s'
      else split_go sep (String c cur) s'
  end.

Definition split (sep : ascii) (s : string) : list string := split_go sep "" s.

(** Truthiness of a [string | undefined] value: [undefined] and the empty
    string are falsy. *)
Definition truthy (v : option string) : bool :=
  match v with
  | Some s => negb (String.eqb s "")
  | None => false
  end.

(** [xs.filter(Boolean)] on an array of [string | undefined]. *)
Fixpoint filter_Boolean (xs : list (option string)) : list string :=
  match xs with
  | [] => []
  | Some s :: xs' =>
      if String.eqb s "" then filter_Boolean xs' else s :: filter_Boolean xs'
  | None :: xs' => filter_Boolean xs'
  end.

(** [xs.findIndex(Boolean)] on an array of booleans: the index of the
    first [true], or [-1]. *)
Fixpoint findIndex_from (i : Z) (xs : list bool) : Z :=
  match xs with
  | [] => (-1)%Z
  | b :: xs' => if b then i else findIndex_from (i + 1)%Z xs'
  end.

Definition findIndex_Boolean (xs : list bool) : Z := findIndex_from 0%Z xs.

(** [xs[i]] for an integer index: [undefined] out of range. *)
Definition index {A} (xs : list A) (i : Z) : option A :=
  if (i <? 0)%Z then None else xs !! Z.to_nat i.

(** A value [JSON.parse] can return.  The members of an object are kept
    in the order of the text; of two members with one key the later one
    counts. *)
#[warnings="-register-all"]
Inductive Json :=
  | JNull
  | JBool (b : bool)
  | JNumber (x : float)
  | JString (s : string)
  | JArray (items : list Json)
  | JObject (members : list (string * Json)).

(** What reading a property of a parsed value can give: [undefined], a
    parsed value, the [length] of a parsed array, or a member of a
    built-in prototype (a function, or for [__proto__] the prototype
    object itself). *)
Inductive JsValue :=
  | Undefined
  | Parsed (value : Json)
  | Length (n : nat)
  | BuiltIn (name : string).

(** The own property [key] of a parsed object. *)
Fixpoint own (key : string) (members : list (string * Json)) : option Json :=
  match members with
  | [] => None
  | (k, v) :: rest =>
      match own key rest with
      | Some later => Some later
      | None => if String.eqb k key then Some v else None
      end
  end.

(** The string-keyed members of the built-in prototypes (ECMAScript
    2023); every one of them is a function, except [__proto__], whose
    getter returns the prototype object. *)
Definition object_prototype : list string :=
  ["constructor"; "__defineGetter__"; "__defineSetter__"; "hasOwnProperty";
   "__lookupGetter__"; "__lookupSetter__"; "isPrototypeOf";
   "propertyIsEnumerable"; "toString"; "valueOf"; "__proto__";
   "toLocaleString"].

Definition array_prototype : list string :=
  ["at"; "concat"; "constructor"; "copyWithin"; "entries"; "every"; "fill";
   "filter"; "find"; "findIndex"; "findLast"; "findLastIndex"; "flat";
   "flatMap"; "forEach"; "includes"; "indexOf"; "join"; "keys";
   "lastIndexOf"; "map"; "pop"; "push"; "reduce"; "reduceRight"; "reverse";
   "shift"; "slice"; "some"; "sort"; "splice"; "toLocaleString";
   "toReversed"; "toSorted"; "toSpliced"; "toString"; "unshift"; "values";
   "with"].

Definition number_prototype : list string :=
  ["constructor"; "toExponential"; "toFixed"; "toLocaleString";
   "toPrecision"; "toString"; "valueOf"].

Definition boolean_prototype : list string :=
  ["constructor"; "toString"; "valueOf"].

(** A property found on the prototype chain, if any. *)
Definition inherited (chain : list string) (key : string) : JsValue :=
  if bool_decide (key ∈ chain) then BuiltIn key else Undefined.

(** The array index a property key denotes: a decimal numeral without
    leading zeros. *)
Fixpoint numeral (acc : N) (s : string) : option N :=
  match s with
  | EmptyString => Some acc
  | String c rest =>
      match Ascii.is_nat c with
      | Some d => numeral (acc * 10 + N.of_nat d) rest
      | None => None
      end
  end.

Definition array_index (key : string) : option N :=
  match key with
  | EmptyString => None
  | String "0" EmptyString => Some 0%N
  | String "0" _ => None
  | _ => numeral 0 key
  end.

(** [value[key]] by the kind of [value]: the own property first, then
    the prototype chain. *)
Definition get_object (members : list (string * Json)) (key : string) : JsValue :=
  match own key members with
  | Some v => Parsed v
  | None => inherited object_prototype key
  end.

Definition get_array (items : list Json) (key : string) : JsValue :=
  match array_index key with
  | Some i =>
      if (i <? N.of_nat (length items))%N
      then from_option Parsed Undefined (items !! N.to_nat i)
      else Undefined
  | None =>
      if String.eqb key "length" then Length (length items)
      else inherited (array_prototype ++ object_prototype) key
  end.

Definition get_number (key : string) : JsValue :=
  inherited (number_prototype ++ object_prototype) key.

Definition get_boolean (key : string) : JsValue :=
  inherited (boolean_prototype ++ object_prototype) key.

(** Truthiness of such a value: [undefined], [null], [false], [0], [NaN]
    and the empty string are falsy. *)
Definition truthy_value (v : JsValue) : bool :=
  match v with
  | Undefined => false
  | Parsed JNull => false
  | Parsed (JBool b) => b
  | Parsed (JNumber x) => negb (PrimFloat.eqb x 0%float) && negb (PrimFloat.is_nan x)
  | Parsed (JString s) => negb (String.eqb s "")
  | Parsed (JArray _) | Parsed (JObject _) => true
  | Length n => negb (n =? 0)
  | BuiltIn _ => true
  end.

(** [Promise.all]: a slot per input promise, written when that promise
    settles; [sched] lists the input positions in the order in which
    they settle.  The combined promise is fulfilled once every slot is
    written, with the slots in input order. *)
Definition settle {A} (settled : list A) (slots : list (option A)) (i : nat)
  : list (option A) :=
  match settled !! i with
  | Some v => <[i := Some v]> slots
  | None => slots
  end.

Definition Promise_all {A} (sched : list nat) (settled : list A)
  : option (list A) :=
  let slots := foldl (settle settled) (replicate (length settled) None) sched in
  mapM id slots.

End Js.

(** ** The [node:path] module *)

(** The functions of [node:path] the sources call.  [path.join] and
    [path.resolve] are variadic.  Two facts about them are used: walking
    up with [dirname] reaches a fixed point (the root), and [join] never
    returns the empty string (Node returns ["."] instead). *)
Class PathModule := {
  dirname : string → string;
  join : list string → string;
  resolve : list string → string;
  isAbsolute : string → bool;
  normalize : string → string;
  delimiter : string;
  depth : string → nat;
  dirname_depth : ∀ p, dirname p ≠ p → depth (dirname p) < depth p;
  join_nonempty : ∀ ps, join ps ≠ "";
}.

(** *** [path.posix] *)

Module Posix.

Definition is_slash (c : ascii) : bool := Ascii.eqb c "/".

Fixpoint drop_while {A} (f : A → bool) (l : list A) : list A :=
  match l with
  | [] => []
  | x :: l' => if f x then drop_while f l' else l
  end.

(** [posix.dirname]: scanning from the right and never looking at
    position 0, skip the trailing slashes, skip the last segment, and cut
    at the slash found next. *)
Definition posix_dirname (p : string) : string :=
  match p with
  | EmptyString => "."
  | String c0 rest =>
      let hasRoot := is_slash c0 in
      let scan := rev (String.list_ascii_of_string rest) in
      let scan := drop_while is_slash scan in
      let scan := drop_while (λ c, negb (is_slash c)) scan in
      match scan with
      | [] => if hasRoot then "/" else "."
      | _ :: before =>
          if hasRoot && bool_decide (before = []) then "//"
          else String c0 (String.string_of_list_ascii (rev before))
      end
  end.

(** Split at every slash: ["a//b"] gives [["a"; ""; "b"]]. *)
Definition segments (s : string) : list string := Js.split "/" s.

Fixpoint concat_with (sep : string) (l : list string) : string :=
  match l with
  | [] => ""
  | [x] => x
  | x :: l' => x +:+ sep +:+ concat_with sep l'
  end.

(** One step of [normalizeString]: empty and ["."] segments vanish,
    [".."] removes the segment before it unless there is none (or it is
    itself a kept [".."]), in which case it is kept only above a relative
    root.  The stack holds the kept segments, last one first. *)
Definition normalize_step (allowAboveRoot : bool) (stack : list string)
    (seg : string) : list string :=
  if String.eqb seg "" || String.eqb seg "." then stack
  else if String.eqb seg ".." then
    match stack with
    | top :: below =>
        if String.eqb top ".." then
          if allowAboveRoot then ".." :: stack else stack
        else below
    | [] => if allowAboveRoot then [".."] else []
    end
  else seg :: stack.

Definition normalizeString (path : string) (allowAboveRoot : bool) : string :=
  concat_with "/" (rev (foldl (normalize_step allowAboveRoot) [] (segments path))).

Definition posix_isAbsolute (p : string) : bool :=
  match p with
  | String c _ => is_slash c
  | EmptyString => false
  end.

Definition posix_normalize (p : string) : string :=
  match p with
  | EmptyString => "."
  | _ =>
      let isAbs := posix_isAbsolute p in
      let trailingSeparator := Js.endsWith p "/" in
      let body := normalizeString p (negb isAbs) in
      if String.eqb body "" then
        if isAbs then "/" else if trailingSeparator then "./" else "."
      else
        let body := if trailingSeparator then body +:+ "/" else body in
        if isAbs then "/" +:+ body else body
  end.

Definition posix_join (args : list string) : string :=
  match filter (λ a, a ≠ "") args with
  | [] => "."
  | parts => posix_normalize (concat_with "/" parts)
  end.

(** [posix.resolve]: prepend arguments from the right until one is
    absolute; the working directory comes after the leftmost one. *)
Fixpoint resolve_go (cwd : string) (rev_args : list string) (acc : string)
  : string * bool :=
  match rev_args with
  | [] =>
      if String.eqb cwd "" then (acc, false)
      else (cwd +:+ "/" +:+ acc, posix_isAbsolute cwd)
  | p :: rest =>
      if String.eqb p "" then resolve_go cwd rest acc
      else if posix_isAbsolute p then (p +:+ "/" +:+ acc, true)
      else resolve_go cwd rest (p +:+ "/" +:+ acc)
  end.

Definition posix_resolve (cwd : string) (args : list string) : string :=
  let '(resolvedPath, resolvedAbsolute) := resolve_go cwd (rev args) "" in
  let body := normalizeString resolvedPath (negb resolvedAbsolute) in
  if resolvedAbsolute then "/" +:+ body
  else if String.eqb body "" then "." else body.

(** Distance to the fixed points ["/"] and ["."] of [posix_dirname]. *)
Definition posix_depth (p : string) : nat :=
  if String.eqb p "/" || String.eqb p "." then 0 else S (String.length p).

End Posix.

(** ** The world outside the module *)

(** What can be thrown inside the module.  [TypeError] is what reading
    a property of [null] and what [path.resolve] on a non-string throw,
    [SearchError] what a rejected [workspace.findFiles] carries,
    [SystemError] what [os.homedir] throws when the home directory cannot
    be determined. *)
Inductive JsError :=
  | Error (message : string)
  | TypeError
  | FsError (path : string)
  | SyntaxError
  | ModuleNotFound (request : string)
  | SpawnError (command : string)
  | SearchError (include : string)
  | SystemError (syscall : string).

(** A settled promise. *)
Inductive Promise (A : Type) :=
  | Fulfilled (value : A)
  | Rejected (reason : JsError).
Arguments Fulfilled {A} value.
Arguments Rejected {A} reason.

Record SpawnSyncOptions := {
  shell : bool;
  timeout : option Z;
  encoding : string;
}.

(** [error] tells whether [result.error] is set; [status] is [null] when
    the child was killed. *)
Record SpawnSyncReturns := {
  error : bool;
  status : option Z;
  stdout : string;
  stderr : string;
}.

(** One snapshot of the host.  A [None] from [readFile], [JSON_parse],
    [require_resolve], [spawnSync] or [homedir] is a throw, a [None] from
    [findFiles] and a [false] from [stat] a rejection.  [completion]
    gives, for the paths checked together, the order in which the checks
    settle; every check settles once. *)
Record Env := {
  platform : string;
  readFile : string → option string;
  JSON_parse : string → option Js.Json;
  stat : string → bool;
  completion : list string → list nat;
  completion_perm : ∀ paths, completion paths ≡ₚ seq 0 (length paths);
  workspaceFolders : option (list string);
  isTrusted : bool;
  findFiles : string → string → option (list string);
  require_resolve : string → list string → option string;
  validateSafeBinaryPath : string → bool;
  spawnSync : string → list string → SpawnSyncOptions → option SpawnSyncReturns;
  homedir : option string;
  process_env : gmap string string;
  execPath : string;
}.

(** External calls, logged in the order they are issued. *)
Inductive Event :=
  | EvReadFile (path : string)
  | EvStat (path : string)
  | EvFindFiles (include exclude : string)
  | EvRequireResolve (request : string) (paths : list string)
  | EvSpawnSync (command : string) (args : list string) (options : SpawnSyncOptions)
  | EvValidate (path : string).

(** The module-level memo, which holds a promise, and the log. *)
Record State := {
  cachedWorkspacePackageJsonNodeModules : option (Promise (list string));
  trace : list Event;
}.

Definition log (e : Event) (s : State) : State :=
  {| cachedWorkspacePackageJsonNodeModules := cachedWorkspacePackageJsonNodeModules s;
     trace := trace s ++ [e] |}.

Definition logs (es : list Event) (s : State) : State :=
  {| cachedWorkspacePackageJsonNodeModules := cachedWorkspacePackageJsonNodeModules s;
     trace := trace s ++ es |}.

(** ** The monad *)

Inductive Outcome (A : Type) :=
  | Return (a : A)
  | Throw (e : JsError)
  | Diverge.
Arguments Return {A} a.
Arguments Throw {A} e.
Arguments Diverge {A}.

Definition M (A : Type) : Type := State → Outcome A * State.

Definition ret {A} (a : A) : M A := λ s, (Return a, s).
Definition throw {A} (e : JsError) : M A := λ s, (Throw e, s).
Definition diverge {A} : M A := λ s, (Diverge, s).

Definition bind {A B} (k : A → M B) (m : M A) : M B :=
  λ s, match m s with
       | (Return a, s') => k a s'
       | (Throw e, s') => (Throw e, s')
       | (Diverge, s') => (Diverge, s')
       end.

Global Instance M_ret : MRet M := @ret.
Global Instance M_bind : MBind M := @bind.

(** [try { body } catch { handler }] *)
Definition try_catch {A} (body : M A) (handler : JsError → M A) : M A :=
  λ s, match body s with
       | (Throw e, s') => handler e s'
       | r => r
       end.

Definition emit (e : Event) : M unit := λ s, (Return (), log e s).

(** [await promise] *)
Definition await {A} (promise : Promise A) : M A :=
  match promise with
  | Fulfilled value => ret value
  | Rejected reason => throw reason
  end.

(** Start the computations in order and collect what they settle with. *)
Fixpoint start_all {A} (ps : list (M A)) : M (list A) :=
  match ps with
  | [] => ret []
  | p :: ps' => v ← p; vs ← start_all ps'; ret (v :: vs)
  end.

(** [await Promise.all(ps)] under a completion order. *)
Definition Promise_all {A} (sched : list nat) (ps : list (M A)) : M (list A) :=
  settled ← start_all ps;
  match Js.Promise_all sched settled with
  | Some values => ret values
  | None => diverge
  end.

(** ** [client/findBinary.ts] *)

Definition dq : string := String "034"%char EmptyString.

Section FindBinary.
Context `{PathModule} (E : Env).

(** *** Primitives *)

Definition readFileSync (path : string) : M string :=
  emit (EvReadFile path);;
  match readFile E path with
  | Some content => ret content
  | None => throw (FsError path)
  end.

Definition parse (rawContent : string) : M Js.Json :=
  match JSON_parse E rawContent with
  | Some value => ret value
  | None => throw SyntaxError
  end.

Definition fs_stat (path : string) : M unit :=
  emit (EvStat path);;
  if stat E path then ret () else throw (FsError path).

Definition resolve_module (request : string) (paths : list string) : M string :=
  emit (EvRequireResolve request paths);;
  match require_resolve E request paths with
  | Some main => ret main
  | None => throw (ModuleNotFound request)
  end.

Definition spawn (command : string) (args : list string)
    (options : SpawnSyncOptions) : M SpawnSyncReturns :=
  emit (EvSpawnSync command args options);;
  match spawnSync E command args options with
  | Some result => ret result
  | None => throw (SpawnError command)
  end.

Definition os_homedir : M string :=
  match homedir E with
  | Some home => ret home
  | None => throw (SystemError "uv_os_homedir")
  end.

Definition validate (path : string) : M bool :=
  emit (EvValidate path);;
  ret (validateSafeBinaryPath E path).

Definition is_win32 : bool := String.eqb (platform E) "win32".

(** *** [replaceTargetFromMainToBin] *)

Definition no_bin_entry (binaryName : string) : JsError :=
  Error ("No bin entry for " +:+ dq +:+ binaryName +:+ dq +:+ " found in package.json").

Definition no_package_json (binaryName : string) : JsError :=
  Error ("Could not find package.json for " +:+ dq +:+ binaryName +:+ dq).

(** [packageJson.bin]: a [TypeError] on [null], the own member of an
    object, [undefined] on anything else (no built-in prototype has a
    member of that name). *)
Definition bin (packageJson : Js.Json) : M (option Js.Json) :=
  match packageJson with
  | Js.JNull => throw TypeError
  | Js.JObject members => ret (Js.own "bin" members)
  | _ => ret None
  end.

(** [typeof bin === "string" ? bin : bin?.[binaryName]] *)
Definition binEntry (bin : option Js.Json) (binaryName : string) : Js.JsValue :=
  match bin with
  | Some (Js.JString entry) => Js.Parsed (Js.JString entry)
  | Some Js.JNull | None => Js.Undefined
  | Some (Js.JObject members) => Js.get_object members binaryName
  | Some (Js.JArray items) => Js.get_array items binaryName
  | Some (Js.JNumber _) => Js.get_number binaryName
  | Some (Js.JBool _) => Js.get_boolean binaryName
  end.

(** [path.resolve(dir, binEntry)], which type-checks its arguments when
    it runs. *)
Definition resolve_entry (dir : string) (binEntry : Js.JsValue) : M string :=
  match binEntry with
  | Js.Parsed (Js.JString entry) => ret (resolve [dir; entry])
  | _ => throw TypeError
  end.

(** The [n]-th directory above [dir]; [ancestor 0 dir] is [dir]. *)
Fixpoint ancestor (n : nat) (dir : string) : string :=
  match n with
  | 0 => dir
  | S n' => ancestor n' (dirname dir)
  end.

(** [path.join(dir, "package.json")] *)
Definition manifest_of (dir : string) : string := join [dir; "package.json"].

(** The loop body once [package.json] has been read in [dir]: parse it,
    pick the entry, fail on a falsy one, resolve it against [dir]. *)
Definition bin_from_manifest (dir binaryName rawContent : string) : M string :=
  packageJson ← parse rawContent;
  bin ← bin packageJson;
  let binEntry := binEntry bin binaryName in
  if negb (Js.truthy_value binEntry) then throw (no_bin_entry binaryName)
  else resolve_entry dir binEntry.

(** The [while] loop; [fuel] bounds the iterations still allowed. *)
Fixpoint walk (fuel : nat) (dir binaryName : string) : M string :=
  if bool_decide (dir = dirname dir) then throw (no_package_json binaryName)
  else
    match fuel with
    | 0 => diverge
    | S fuel' =>
        read ← try_catch
                 (rawContent ← readFileSync (manifest_of dir);
                  ret (Some rawContent))
                 (λ _, ret None);
        match read with
        | None => walk fuel' (dirname dir) binaryName
        | Some rawContent => bin_from_manifest dir binaryName rawContent
        end
    end.

Definition replaceTargetFromMainToBin (resolvedPath binaryName : string)
  : M string :=
  let dir := dirname resolvedPath in
  walk (depth dir) dir binaryName.

(** *** [searchNodeModulesDefaultBinPath] *)

Definition bin_candidates (binaryName : string) (folders : list string)
  : list string :=
  flat_map (λ folder,
    let basePath := join [folder; ".bin"; binaryName] in
    if is_win32 then [basePath; basePath +:+ ".exe"] else [basePath]) folders.

Definition candidate_exists (candidate : string) : M bool :=
  try_catch (fs_stat candidate;; ret true) (λ _, ret false).

Definition searchNodeModulesDefaultBinPath (binaryName : string)
    (folders : list string) : M (option string) :=
  let candidates := bin_candidates binaryName folders in
  exists_ ← Promise_all (completion E candidates)
                        (map candidate_exists candidates);
  let firstExistingCandidateIndex := Js.findIndex_Boolean exists_ in
  if (firstExistingCandidateIndex =? -1)%Z then ret None
  else ret (Js.index candidates firstExistingCandidateIndex).

(** *** The workspace manifest index *)

Definition scan_node_modules (uris : list string) : list string :=
  map (λ fsPath, join [dirname fsPath; "node_modules"]) uris.

(** [workspace.findFiles(include, exclude).then(uris => uris.map(...))] *)
Definition search_manifests (include exclude : string) : Promise (list string) :=
  match findFiles E include exclude with
  | Some uris => Fulfilled (scan_node_modules uris)
  | None => Rejected (SearchError include)
  end.

(** The function returns the promise itself; whether it was fulfilled
    shows only where it is awaited. *)
Definition getWorkspacePackageJsonNodeModules : M (Promise (list string)) :=
  λ s, match cachedWorkspacePackageJsonNodeModules s with
       | Some promise => (Return promise, s)
       | None =>
           let include := "**/package.json" in
           let exclude := "**/node_modules/**" in
           let promise := search_manifests include exclude in
           (Return promise,
            {| cachedWorkspacePackageJsonNodeModules := Some promise;
               trace := trace s ++ [EvFindFiles include exclude] |})
       end.

Definition clearWorkspacePackageJsonNodeModulesCache : M unit :=
  λ s, (Return (),
        {| cachedWorkspacePackageJsonNodeModules := None; trace := trace s |}).

(** *** [searchProjectNodeModulesBin] *)

Definition workspace_roots : list string :=
  default [] (workspaceFolders E).

Definition searchProjectNodeModulesBin (binaryName : string)
  : M (option string) :=
  try_catch
    (main ← resolve_module binaryName workspace_roots;
     resolvedPath ← replaceTargetFromMainToBin main binaryName;
     ret (Some resolvedPath))
    (λ _,
     let workspaceNodeModules :=
       map (λ folder, join [folder; "node_modules"]) workspace_roots in
     result ← searchNodeModulesDefaultBinPath binaryName workspaceNodeModules;
     if Js.truthy result then ret result
     else
       promise ← getWorkspacePackageJsonNodeModules;
       packageJsonNodeModules ← await promise;
       searchNodeModulesDefaultBinPath binaryName packageJsonNodeModules).

(** *** [safeSpawnSync] and [globalNodeModulesPaths] *)

Definition safeSpawnSync (command : string) (args : list string)
  : M (option string) :=
  try_catch
    (result ← spawn command args
                {| shell := true; timeout := None; encoding := "utf8" |};
     if error result || negb (bool_decide (status result = Some 0%Z))
     then ret None
     else
       let trimmed := Js.trim (stdout result) in
       ret (if String.eqb trimmed "" then None else Some trimmed))
    (λ _, ret None).

Definition globalNodeModulesPaths : M (list string) :=
  npmGlobalNodeModulesPath ← safeSpawnSync "npm" ["root"; "-g"];
  pnpmGlobalNodeModulesPath ← safeSpawnSync "pnpm" ["root"; "-g"];
  home ← os_homedir;
  let bunGlobalNodeModulesPath :=
    resolve [home; ".bun/install/global/node_modules"] in
  ret (Js.filter_Boolean [npmGlobalNodeModulesPath; pnpmGlobalNodeModulesPath;
                          Some bunGlobalNodeModulesPath]).

(** *** [searchGlobalNodeModulesBin] *)

Definition searchGlobalNodeModulesBin (binaryName : string)
  : M (option string) :=
  globalPaths ← globalNodeModulesPaths;
  try_catch
    (main ← resolve_module binaryName globalPaths;
     resolvedPath ← replaceTargetFromMainToBin main binaryName;
     ret (Some resolvedPath))
    (λ _, searchNodeModulesDefaultBinPath binaryName globalPaths).

(** *** [searchSettingsBin] *)

Definition path_exists (path : string) : M bool :=
  try_catch (fs_stat path;; ret true) (λ _, ret false).

(** The path after the two rewriting steps, or [None] where the function
    returns early for want of a workspace folder. *)
Definition settings_target (settingsBinary : string) : option string :=
  let anchored :=
    if negb (isAbsolute settingsBinary) then
      let cwd := workspaceFolders E ≫= head in
      if Js.truthy cwd then
        match cwd with
        | Some cwd => Some (normalize (join [cwd; settingsBinary]))
        | None => None
        end
      else None
    else Some settingsBinary in
  match anchored with
  | Some settingsBinary =>
      if negb is_win32 && Js.endsWith settingsBinary ".exe"
      then Some (Js.slice_to_minus 4 settingsBinary)
      else Some settingsBinary
  | None => None
  end.

Definition searchSettingsBin (settingsBinary : string) : M (option string) :=
  if negb (isTrusted E) then ret None
  else
    safe ← validate settingsBinary;
    if negb safe then ret None
    else
      match settings_target settingsBinary with
      | None => ret None
      | Some settingsBinary =>
          found ← path_exists settingsBinary;
          if found : bool then ret (Some settingsBinary)
          else if is_win32 then
            let settingsBinary :=
              if negb (Js.endsWith settingsBinary ".exe")
              then settingsBinary +:+ ".exe" else settingsBinary in
            found ← path_exists settingsBinary;
            if found : bool then ret (Some settingsBinary) else ret None
          else ret None
      end.

End FindBinary.

(** ** The launch descriptor builder ([client/tools/lsp_helper.ts]) *)

Module LspHelper.

Definition LF : string := String "010"%char EmptyString.

(** Modelled from the spec: the launch options of section 3, "a flag
    indicating the command must be interpreted through a shell, and an
    environment-variable mapping override". *)
Record ExecutableOptions := {
  shell : bool;
  env : gmap string string;
}.

(** Modelled from the spec: the launch descriptor of section 3, "the
    command string to execute, an ordered sequence of string arguments,
    and launch options". *)
Record Executable := {
  command : string;
  args : list string;
  options : ExecutableOptions;
}.

(** Modelled from the spec: what the runtime resolver of section 4.7
    yields, the path and whether it is the host's own executable taken as
    the last resort. *)
Record Runtime := {
  runtimePath : string;
  hostFallback : bool;
}.

Section LspHelper.
Context `{PathModule} (E : Env).

(** The arguments of the PATH probe and the script handed to the login
    shell are not fixed by the specification; they are parameters. *)
Variable probeArgs : list string.
Variable locateScript : string.

(** Modelled from the spec: the canonical command name of the runtime
    (section 4.7, tier 2); the unit tests expect ["node"]. *)
Definition canonicalName : string := "node".

(** Modelled from the spec: the bounded subprocess call of section 4.7,
    "with a bounded timeout (5 seconds)".  A thrown spawn error, a
    reported error and a non-zero or missing exit status are all
    "source unavailable" (section 7). *)
Definition bounded : SpawnSyncOptions :=
  Build_SpawnSyncOptions false (Some 5000%Z) "utf8".

Definition run (cmd : string) (arguments : list string) : M (option string) :=
  try_catch
    (result ← spawn E cmd arguments bounded;
     if error result || negb (bool_decide (status result = Some 0%Z))
     then ret None else ret (Some (stdout result)))
    (λ _, ret None).

(** Modelled from the spec: "take the last non-empty line of its standard
    output as the resolved path" (section 4.7, tier 3). *)
Definition lastNonEmptyLine (output : string) : option string :=
  last (filter (λ line, line ≠ "") (Js.split "010" output)).

(** Modelled from the spec: [resolveRuntimePath] of section 4.7.  Tier 1
    is the caller's path; tier 2 probes the canonical name on PATH; tier
    3 asks the interactive login shell named by the SHELL variable; tier
    4 is the host's own executable. *)
Definition resolveRuntimePath (explicitPath : option string) : M Runtime :=
  match explicitPath with
  | Some path => ret {| runtimePath := path; hostFallback := false |}
  | None =>
      onPath ← run canonicalName probeArgs;
      match onPath with
      | Some _ => ret {| runtimePath := canonicalName; hostFallback := false |}
      | None =>
          fromShell ←
            match process_env E !! "SHELL" with
            | Some loginShell =>
                output ← run loginShell ["-ilc"; locateScript];
                ret (output ≫= lastNonEmptyLine)
            | None => ret None
            end;
          match fromShell with
          | Some path => ret {| runtimePath := path; hostFallback := false |}
          | None => ret {| runtimePath := execPath E; hostFallback := true |}
          end
      end
  end.

(** Modelled from the spec: "a path ending in .js, .cjs, or .mjs"
    (sections 4.8 and 8). *)
Definition isScript (targetPath : string) : bool :=
  Js.endsWith targetPath ".js" || Js.endsWith targetPath ".cjs"
  || Js.endsWith targetPath ".mjs".

(** Modelled from the spec: the child environment of section 4.8.  A
    resolved runtime other than the bare command name gets its directory
    put in front of the inherited PATH; the host fallback adds the
    run-as-interpreter flag. *)
Definition childEnv (runtime : option Runtime) : gmap string string :=
  match runtime with
  | None => process_env E
  | Some r =>
      let withPath :=
        if String.eqb (runtimePath r) canonicalName then process_env E
        else <["PATH" := dirname (runtimePath r) +:+ delimiter
                         +:+ default "" (process_env E !! "PATH")]> (process_env E) in
      if hostFallback r then <["ELECTRON_RUN_AS_NODE" := "1"]> withPath
      else withPath
  end.

(** Modelled from the spec: [buildLaunchDescriptor] of section 4.8, the
    [runExecutable] of the unit tests.  Script targets run under the
    resolved runtime; anything else is a native binary, quoted and run
    through the shell on Windows only. *)
Definition runExecutable (targetPath toolName : string)
    (explicitPath : option string) : M Executable :=
  if isScript targetPath then
    runtime ← resolveRuntimePath explicitPath;
    ret {| command := runtimePath runtime;
           args := [targetPath; "--lsp"];
           options := {| shell := false; env := childEnv (Some runtime) |} |}
  else
    let runtime :=
      (λ path, {| runtimePath := path; hostFallback := false |}) <$> explicitPath in
    if is_win32 E then
      ret {| command := dq +:+ targetPath +:+ dq;
             args := ["--lsp"];
             options := {| shell := true; env := childEnv runtime |} |}
    else
      ret {| command := targetPath;
             args := ["--lsp"];
             options := {| shell := false; env := childEnv runtime |} |}.

End LspHelper.
End LspHelper.

(** * Properties *)

(** ** [path.posix] is a [PathModule] *)

Module PosixFacts.
Import Posix.

Lemma length_string_of_list_ascii (l : list ascii) :
  String.length (String.string_of_list_ascii l) = length l.
Proof. induction l as [|c l IH]; simpl; [done | by rewrite IH]. Qed.

Lemma length_list_ascii_of_string (s : string) :
  length (String.list_ascii_of_string s) = String.length s.
Proof. induction s as [|c s IH]; simpl; [done | by rewrite IH]. Qed.

Lemma drop_while_length {A} (f : A → bool) (l : list A) :
  length (drop_while f l) ≤ length l.
Proof.
  induction l as [|x l IH]; simpl; [lia|].
  destruct (f x); simpl; lia.
Qed.

(** Skipping a run of slashes and then a run of other characters eats at
    least one character whenever something is left. *)
Lemma drop_segment_length (l : list ascii) (x : ascii) (before : list ascii) :
  drop_while (λ c, negb (is_slash c)) (drop_while is_slash l) = x :: before →
  length before + 2 ≤ length l.
Proof.
  intros Hscan.
  pose proof (drop_while_length is_slash l) as Hle.
  destruct (drop_while is_slash l) as [|y tail] eqn:Hfirst; [done|].
  assert (is_slash y = false) as Hy.
  { clear -Hfirst. induction l as [|z l IH]; simpl in Hfirst; [done|].
    destruct (is_slash z) eqn:Hz; [auto | congruence]. }
  simpl in Hscan. rewrite Hy in Hscan. simpl in Hscan.
  pose proof (drop_while_length (λ c, negb (is_slash c)) tail) as Hle'.
  rewrite Hscan in Hle'. simpl in *. lia.
Qed.

Lemma posix_depth_le (p : string) : posix_depth p ≤ S (String.length p).
Proof. unfold posix_depth. destruct (_ || _); lia. Qed.

Lemma posix_depth_long (p : string) :
  2 ≤ String.length p → posix_depth p = S (String.length p).
Proof.
  intros Hlen. unfold posix_depth.
  destruct p as [|c [|c' p]]; simpl in Hlen; try lia.
  destruct (String.eqb_spec (String c (String c' p)) "/"); [done|].
  destruct (String.eqb_spec (String c (String c' p)) "."); done.
Qed.

Lemma posix_dirname_depth (p : string) :
  posix_dirname p ≠ p → posix_depth (posix_dirname p) < posix_depth p.
Proof.
  intros Hne. destruct p as [|c0 rest]; [by vm_compute|].
  unfold posix_dirname in *.
  destruct (drop_while _ (drop_while is_slash (rev (String.list_ascii_of_string rest))))
    as [|x before] eqn:Hscan.
  - assert (posix_depth (if is_slash c0 then "/" else ".") = 0) as ->
      by (by destruct (is_slash c0)).
    unfold posix_depth.
    destruct (String.eqb_spec (String c0 rest) "/") as [Heq|_].
    { injection Heq as -> ->. by vm_compute in Hne. }
    destruct (String.eqb_spec (String c0 rest) ".") as [Heq|_].
    { injection Heq as -> ->. by vm_compute in Hne. }
    simpl. lia.
  - apply drop_segment_length in Hscan.
    rewrite length_rev, length_list_ascii_of_string in Hscan.
    rewrite (posix_depth_long (String c0 rest)) by (simpl; lia).
    destruct (is_slash c0 && bool_decide (before = [])).
    + vm_compute posix_depth at 1. simpl. lia.
    + pose proof (posix_depth_le
        (String c0 (String.string_of_list_ascii (rev before)))) as Hle.
      simpl in *. rewrite length_string_of_list_ascii, length_rev in Hle. lia.
Qed.

Lemma append_nonempty_l (a b : string) : a ≠ "" → a +:+ b ≠ "".
Proof. by destruct a. Qed.

Lemma posix_normalize_nonempty (p : string) : posix_normalize p ≠ "".
Proof.
  unfold posix_normalize. destruct p as [|c p]; [done|].
  destruct (String.eqb_spec (normalizeString (String c p)
              (negb (posix_isAbsolute (String c p)))) "") as [_|Hbody].
  - by repeat case_match.
  - repeat case_match; try done; by apply append_nonempty_l.
Qed.

Lemma posix_join_nonempty (args : list string) : posix_join args ≠ "".
Proof.
  unfold posix_join. case_match; [done | apply posix_normalize_nonempty].
Qed.

End PosixFacts.

(** [path.posix] in a process whose working directory is [cwd]. *)
Definition posix (cwd : string) : PathModule := {|
  dirname := Posix.posix_dirname;
  join := Posix.posix_join;
  resolve := Posix.posix_resolve cwd;
  isAbsolute := Posix.posix_isAbsolute;
  normalize := Posix.posix_normalize;
  delimiter := ":";
  depth := Posix.posix_depth;
  dirname_depth := PosixFacts.posix_dirname_depth;
  join_nonempty := PosixFacts.posix_join_nonempty;
|}.

(** ** [Promise.all] and [findIndex] *)

Section PromiseAll.
Context {A : Type}.
Implicit Types (settled : list A) (slots : list (option A)) (sched : list nat).

Lemma settle_lookup settled slots i j :
  length slots = length settled →
  Js.settle settled slots j !! i
  = if decide (i = j) then Some <$> settled !! i else slots !! i.
Proof.
  intros Hlen. unfold Js.settle.
  destruct (settled !! j) as [v|] eqn:Hj.
  - apply lookup_lt_Some in Hj as Hlt.
    case_decide as Hij; [subst i|].
    + rewrite list_lookup_insert_eq by lia. by rewrite Hj.
    + by rewrite list_lookup_insert_ne.
  - case_decide as Hij; [subst i|done].
    rewrite Hj. simpl. apply lookup_ge_None. apply lookup_ge_None in Hj. lia.
Qed.

Lemma settle_length settled slots j :
  length (Js.settle settled slots j) = length slots.
Proof. unfold Js.settle. case_match; [apply length_insert | done]. Qed.

Lemma settle_all_lookup settled sched slots i :
  length slots = length settled →
  foldl (Js.settle settled) slots sched !! i
  = if decide (i ∈ sched) then Some <$> settled !! i else slots !! i.
Proof.
  revert slots. induction sched as [|j sched IH]; intros slots Hlen.
  - rewrite decide_False; [done | apply not_elem_of_nil].
  - change (foldl (Js.settle settled) slots (j :: sched))
      with (foldl (Js.settle settled) (Js.settle settled slots j) sched).
    rewrite IH by (by rewrite settle_length).
    rewrite settle_lookup by done.
    destruct (decide (i ∈ sched)) as [Hin|Hnin].
    + rewrite decide_True; [done | by right].
    + destruct (decide (i = j)) as [->|Hne].
      * rewrite decide_True; [done | by left].
      * rewrite decide_False; [done|]. by intros [?|?]%elem_of_cons.
Qed.

(** Whatever the order in which the inputs settle, the values come out
    in input order. *)
Lemma Promise_all_any_order settled sched :
  sched ≡ₚ seq 0 (length settled) →
  Js.Promise_all sched settled = Some settled.
Proof.
  intros Hperm. unfold Js.Promise_all.
  assert (foldl (Js.settle settled) (replicate (length settled) None) sched
          = Some <$> settled) as ->.
  { apply list_eq. intros i.
    rewrite settle_all_lookup by apply length_replicate.
    rewrite list_lookup_fmap.
    case_decide as Hin; [done|].
    rewrite Hperm, elem_of_seq in Hin.
    assert (length settled ≤ i) as Hge by lia.
    rewrite (proj2 (lookup_ge_None settled i) Hge).
    by apply lookup_replicate_None. }
  by apply mapM_fmap_Some.
Qed.

End PromiseAll.

Lemma findIndex_from_find {A} (f : A → bool) (l : list A) (i : Z) :
  (0 ≤ i)%Z →
  match find f l with
  | Some x =>
      ∃ k, Js.findIndex_from i (map f l) = (i + Z.of_nat k)%Z ∧
           l !! k = Some x ∧ f x = true ∧
           ∀ j y, j < k → l !! j = Some y → f y = false
  | None => Js.findIndex_from i (map f l) = (-1)%Z
  end.
Proof.
  revert i. induction l as [|x l IH]; intros i Hi; simpl; [done|].
  destruct (f x) eqn:Hx.
  - exists 0. repeat split; [lia | done | intros j y Hj; lia].
  - specialize (IH (i + 1)%Z ltac:(lia)).
    destruct (find f l) as [y|]; [|done].
    destruct IH as (k & Hk & Hlk & Hy & Hbefore).
    exists (S k). repeat split; [lia | done | done |].
    intros [|j] z Hj Hz; simpl in Hz; [by simplify_eq|].
    apply (Hbefore j); [lia | done].
Qed.

(** [candidates[exists.findIndex(Boolean)]], guarded by the [-1] test, is
    the first candidate that passes. *)
Lemma index_of_first {A} (f : A → bool) (l : list A) :
  (if (Js.findIndex_Boolean (map f l) =? -1)%Z then None
   else Js.index l (Js.findIndex_Boolean (map f l))) = find f l.
Proof.
  pose proof (findIndex_from_find f l 0 ltac:(lia)) as Hfind.
  unfold Js.findIndex_Boolean.
  destruct (find f l) as [x|].
  - destruct Hfind as (k & -> & Hk & _).
    destruct (Z.eqb_spec (0 + Z.of_nat k) (-1)); [lia|].
    unfold Js.index. destruct (Z.ltb_spec (0 + Z.of_nat k) 0); [lia|].
    by replace (Z.to_nat (0 + Z.of_nat k)) with k by lia.
  - by rewrite Hfind.
Qed.

(** ** Running the monad *)

Lemma logs_nil s : logs [] s = s.
Proof. destruct s. unfold logs. simpl. by rewrite app_nil_r. Qed.

Lemma logs_logs es es' s : logs es' (logs es s) = logs (es ++ es') s.
Proof. unfold logs. simpl. by rewrite app_assoc. Qed.

Lemma log_logs e s : log e s = logs [e] s.
Proof. done. Qed.

Lemma cache_logs es s :
  cachedWorkspacePackageJsonNodeModules (logs es s)
  = cachedWorkspacePackageJsonNodeModules s.
Proof. done. Qed.

Lemma trace_logs es s : trace (logs es s) = trace s ++ es.
Proof. done. Qed.

Ltac unfold_monad :=
  unfold mbind, M_bind, bind, mret, M_ret, ret, throw, diverge, try_catch, emit.

Section Runs.
Context `{PathModule} (E : Env).

Lemma candidate_exists_run candidate s :
  candidate_exists E candidate s = (Return (stat E candidate), logs [EvStat candidate] s).
Proof.
  unfold candidate_exists, fs_stat. unfold_monad.
  by destruct (stat E candidate).
Qed.

Lemma start_all_candidates candidates s :
  start_all (map (candidate_exists E) candidates) s
  = (Return (map (stat E) candidates), logs (map EvStat candidates) s).
Proof.
  revert s. induction candidates as [|c cs IH]; intros s; simpl.
  - by rewrite logs_nil.
  - unfold mbind, M_bind, bind at 1. rewrite candidate_exists_run.
    unfold bind at 1. rewrite IH. by rewrite logs_logs.
Qed.

(** The probe returns the first candidate, in candidate order, whose
    check succeeds, having issued one check per candidate. *)
Lemma searchNodeModulesDefaultBinPath_run binaryName folders s :
  searchNodeModulesDefaultBinPath E binaryName folders s
  = (Return (find (stat E) (bin_candidates E binaryName folders)),
     logs (map EvStat (bin_candidates E binaryName folders)) s).
Proof.
  unfold searchNodeModulesDefaultBinPath, Promise_all.
  unfold mbind, M_bind, bind at 1. unfold bind at 1.
  rewrite start_all_candidates.
  rewrite Promise_all_any_order
    by (rewrite length_map; apply completion_perm).
  unfold mret, M_ret, ret at 1.
  rewrite <- (index_of_first (stat E)).
  by destruct (_ =? _)%Z.
Qed.

End Runs.

(** ** The ancestor walk *)

Section Walk.
Context `{PathModule} (E : Env).
Implicit Types (dir binaryName rawContent : string) (s : State).

Definition reads (n : nat) (dir : string) : list Event :=
  map (λ i, EvReadFile (manifest_of (ancestor i dir))) (seq 0 n).

Lemma reads_S n dir :
  reads (S n) dir = EvReadFile (manifest_of dir) :: reads n (dirname dir).
Proof.
  unfold reads. simpl. f_equal.
  rewrite <- seq_shift, map_map. done.
Qed.

Lemma bin_from_manifest_entry dir binaryName rawContent members entry s :
  JSON_parse E rawContent = Some (Js.JObject members) →
  binEntry (Js.own "bin" members) binaryName = Js.Parsed (Js.JString entry) →
  entry ≠ "" →
  bin_from_manifest E dir binaryName rawContent s = (Return (resolve [dir; entry]), s).
Proof.
  intros Hparse Hentry Hne. unfold bin_from_manifest, parse, bin. unfold_monad.
  rewrite Hparse, Hentry. simpl.
  by destruct (String.eqb_spec entry "").
Qed.

Lemma bin_from_manifest_missing dir binaryName rawContent members s :
  JSON_parse E rawContent = Some (Js.JObject members) →
  Js.truthy_value (binEntry (Js.own "bin" members) binaryName) = false →
  bin_from_manifest E dir binaryName rawContent s = (Throw (no_bin_entry binaryName), s).
Proof.
  intros Hparse Hentry. unfold bin_from_manifest, parse, bin. unfold_monad.
  by rewrite Hparse, Hentry.
Qed.

Lemma bin_from_manifest_not_a_string dir binaryName rawContent members s :
  JSON_parse E rawContent = Some (Js.JObject members) →
  Js.truthy_value (binEntry (Js.own "bin" members) binaryName) = true →
  (∀ entry, binEntry (Js.own "bin" members) binaryName ≠ Js.Parsed (Js.JString entry)) →
  bin_from_manifest E dir binaryName rawContent s = (Throw TypeError, s).
Proof.
  intros Hparse Htruthy Hkind. unfold bin_from_manifest, parse, bin. unfold_monad.
  rewrite Hparse, Htruthy. simpl. unfold resolve_entry.
  destruct (binEntry _ _) as [|[| | |entry| |]| |]; try done.
  by destruct (Hkind entry).
Qed.

Lemma bin_from_manifest_null dir binaryName rawContent s :
  JSON_parse E rawContent = Some Js.JNull →
  bin_from_manifest E dir binaryName rawContent s = (Throw TypeError, s).
Proof.
  intros Hparse. unfold bin_from_manifest, parse, bin. unfold_monad.
  by rewrite Hparse.
Qed.

Lemma bin_from_manifest_unparsable dir binaryName rawContent s :
  JSON_parse E rawContent = None →
  bin_from_manifest E dir binaryName rawContent s = (Throw SyntaxError, s).
Proof.
  intros Hparse. unfold bin_from_manifest, parse. unfold_monad.
  by rewrite Hparse.
Qed.

Lemma resolve_entry_settles dir entry s :
  (resolve_entry dir entry s).1 ≠ Diverge ∧ (resolve_entry dir entry s).2 = s.
Proof. unfold resolve_entry. by destruct entry as [|[]| |]. Qed.

Lemma bin_from_manifest_settles dir binaryName rawContent s :
  (bin_from_manifest E dir binaryName rawContent s).1 ≠ Diverge
  ∧ (bin_from_manifest E dir binaryName rawContent s).2 = s.
Proof.
  unfold bin_from_manifest, parse, bin. unfold_monad.
  destruct (JSON_parse E rawContent) as [packageJson|]; [|done].
  destruct packageJson; simpl; try done.
  all: destruct (Js.truthy_value _); simpl; try done.
  all: apply resolve_entry_settles.
Qed.

Lemma walk_root fuel dir binaryName s :
  dir = dirname dir →
  walk E fuel dir binaryName s = (Throw (no_package_json binaryName), s).
Proof.
  intros Hroot. destruct fuel; simpl; by rewrite bool_decide_eq_true_2.
Qed.

Lemma walk_unreadable fuel dir binaryName s :
  dir ≠ dirname dir →
  readFile E (manifest_of dir) = None →
  walk E (S fuel) dir binaryName s
  = walk E fuel (dirname dir) binaryName (logs [EvReadFile (manifest_of dir)] s).
Proof.
  intros Hroot Hread. simpl. rewrite bool_decide_eq_false_2 by done.
  unfold readFileSync. unfold_monad. by rewrite Hread.
Qed.

Lemma walk_readable fuel dir binaryName rawContent s :
  dir ≠ dirname dir →
  readFile E (manifest_of dir) = Some rawContent →
  walk E (S fuel) dir binaryName s
  = bin_from_manifest E dir binaryName rawContent
      (logs [EvReadFile (manifest_of dir)] s).
Proof.
  intros Hroot Hread. simpl. rewrite bool_decide_eq_false_2 by done.
  unfold readFileSync. unfold_monad. by rewrite Hread.
Qed.

Lemma depth_step fuel dir :
  dir ≠ dirname dir → depth dir ≤ fuel →
  ∃ fuel', fuel = S fuel' ∧ depth (dirname dir) ≤ fuel'.
Proof.
  intros Hroot Hfuel.
  pose proof (dirname_depth dir (not_eq_sym Hroot)) as Hlt.
  destruct fuel as [|fuel']; [lia|]. exists fuel'. split; [done | lia].
Qed.

(** Climbing past [n] directories without a readable manifest. *)
Lemma walk_climb n : ∀ fuel dir binaryName s,
  depth dir ≤ fuel →
  (∀ i, i < n → ancestor i dir ≠ dirname (ancestor i dir)) →
  (∀ i, i < n → readFile E (manifest_of (ancestor i dir)) = None) →
  ∃ fuel', depth (ancestor n dir) ≤ fuel' ∧
    walk E fuel dir binaryName s
    = walk E fuel' (ancestor n dir) binaryName (logs (reads n dir) s).
Proof.
  induction n as [|n IH]; intros fuel dir binaryName s Hfuel Hbelow Hnone.
  - exists fuel. split; [done|]. by rewrite logs_nil.
  - pose proof (Hbelow 0 ltac:(lia)) as Hroot. simpl in Hroot.
    pose proof (Hnone 0 ltac:(lia)) as Hread. simpl in Hread.
    destruct (depth_step fuel dir Hroot Hfuel) as (fuel1 & -> & Hfuel1).
    rewrite walk_unreadable by done.
    destruct (IH fuel1 (dirname dir) binaryName
                (logs [EvReadFile (manifest_of dir)] s) Hfuel1) as (fuel' & Hfuel' & ->).
    + intros i Hi. apply (Hbelow (S i)). lia.
    + intros i Hi. apply (Hnone (S i)). lia.
    + exists fuel'. split; [done|]. by rewrite logs_logs, reads_S.
Qed.

(** The walk settles: it never runs out of iterations, it leaves the memo
    alone, and it only reads files. *)
Lemma walk_settles fuel : ∀ dir binaryName s,
  depth dir ≤ fuel →
  (walk E fuel dir binaryName s).1 ≠ Diverge
  ∧ ∃ n, (walk E fuel dir binaryName s).2 = logs (reads n dir) s.
Proof.
  induction fuel as [|fuel IH]; intros dir binaryName s Hfuel.
  - destruct (decide (dir = dirname dir)) as [Hroot|Hroot].
    + rewrite walk_root by done. split; [done|]. exists 0. by rewrite logs_nil.
    + destruct (depth_step 0 dir Hroot Hfuel) as (? & ? & _). lia.
  - destruct (decide (dir = dirname dir)) as [Hroot|Hroot].
    { rewrite walk_root by done. split; [done|]. exists 0. by rewrite logs_nil. }
    destruct (depth_step (S fuel) dir Hroot Hfuel) as (fuel1 & [= <-] & Hfuel1).
    destruct (readFile E (manifest_of dir)) as [rawContent|] eqn:Hread.
    + rewrite (walk_readable _ _ _ rawContent) by done.
      destruct (bin_from_manifest_settles dir binaryName rawContent
                  (logs [EvReadFile (manifest_of dir)] s)) as [Hok ->].
      split; [done|]. exists 1. done.
    + rewrite walk_unreadable by done.
      destruct (IH (dirname dir) binaryName
                  (logs [EvReadFile (manifest_of dir)] s) Hfuel1) as [Hok [n ->]].
      split; [done|]. exists (S n). by rewrite logs_logs, reads_S.
Qed.

(** Every directory has the root above it. *)
Lemma reaches_root dir :
  ∃ n, (∀ i, i < n → ancestor i dir ≠ dirname (ancestor i dir))
       ∧ ancestor n dir = dirname (ancestor n dir).
Proof.
  remember (depth dir) as d eqn:Hd. revert dir Hd.
  induction d as [d IH] using lt_wf_ind. intros dir ->.
  destruct (decide (dir = dirname dir)) as [Hroot|Hroot].
  - exists 0. split; [lia | done].
  - destruct (IH (depth (dirname dir))
                (dirname_depth dir (not_eq_sym Hroot)) (dirname dir) eq_refl)
      as (n & Hbelow & Hn).
    exists (S n). split; [|done].
    intros [|i] Hi; [done|]. apply Hbelow. lia.
Qed.

Lemma replaceTarget_found resolvedPath binaryName n rawContent s :
  let dir := dirname resolvedPath in
  (∀ i, i ≤ n → ancestor i dir ≠ dirname (ancestor i dir)) →
  (∀ i, i < n → readFile E (manifest_of (ancestor i dir)) = None) →
  readFile E (manifest_of (ancestor n dir)) = Some rawContent →
  replaceTargetFromMainToBin E resolvedPath binaryName s
  = bin_from_manifest E (ancestor n dir) binaryName rawContent
      (logs (reads (S n) dir) s).
Proof.
  intros dir Hbelow Hnone Hread. unfold replaceTargetFromMainToBin. fold dir.
  destruct (walk_climb n (depth dir) dir binaryName s) as (fuel & Hfuel & ->);
    [done | intros i Hi; apply Hbelow; lia | done |].
  destruct (depth_step fuel (ancestor n dir) (Hbelow n ltac:(lia)) Hfuel)
    as (fuel1 & -> & _).
  rewrite (walk_readable _ _ _ rawContent) by (done || apply Hbelow; lia).
  rewrite logs_logs. f_equal. f_equal. unfold reads.
  by rewrite seq_S, map_app.
Qed.

Lemma replaceTarget_not_found resolvedPath binaryName n s :
  let dir := dirname resolvedPath in
  (∀ i, i < n → ancestor i dir ≠ dirname (ancestor i dir)) →
  (∀ i, i < n → readFile E (manifest_of (ancestor i dir)) = None) →
  ancestor n dir = dirname (ancestor n dir) →
  replaceTargetFromMainToBin E resolvedPath binaryName s
  = (Throw (no_package_json binaryName), logs (reads n dir) s).
Proof.
  intros dir Hbelow Hnone Hroot. unfold replaceTargetFromMainToBin. fold dir.
  destruct (walk_climb n (depth dir) dir binaryName s) as (fuel & Hfuel & ->);
    [done..|].
  by rewrite walk_root.
Qed.

Lemma replaceTarget_settles resolvedPath binaryName s :
  (replaceTargetFromMainToBin E resolvedPath binaryName s).1 ≠ Diverge
  ∧ ∃ n, (replaceTargetFromMainToBin E resolvedPath binaryName s).2
         = logs (reads n (dirname resolvedPath)) s.
Proof. apply walk_settles. done. Qed.

End Walk.

(** ** Concrete hosts *)

Module Fixture.

(** [node:path] on a POSIX host, run from the home directory. *)
Definition node_path : PathModule := posix "/home/dev".

(** The checks of one probe settle last-issued first. *)
Definition reversed (paths : list string) : list nat := rev (seq 0 (length paths)).

Lemma reversed_perm paths : reversed paths ≡ₚ seq 0 (length paths).
Proof. unfold reversed. symmetry. apply Permutation_rev. Qed.

(** A host with the given files and directory entries and nothing else:
    no workspace folder, no installed package, no working subprocess. *)
Definition host (os : string) (files : gmap string string)
    (manifests : gmap string Js.Json) (existing : gset string) : Env := {|
  platform := os;
  readFile := λ path, files !! path;
  JSON_parse := λ rawContent, manifests !! rawContent;
  stat := λ path, bool_decide (path ∈ existing);
  completion := reversed;
  completion_perm := reversed_perm;
  workspaceFolders := None;
  isTrusted := true;
  findFiles := λ _ _, Some [];
  require_resolve := λ _ _, None;
  validateSafeBinaryPath := λ _, true;
  spawnSync := λ _ _ _, None;
  homedir := Some "/home/dev";
  process_env := ∅;
  execPath := "/usr/share/code/code";
|}.

Definition with_workspace (folders : list string) (trusted : bool)
    (found : list string) (E : Env) : Env := {|
  platform := platform E;
  readFile := readFile E;
  JSON_parse := JSON_parse E;
  stat := stat E;
  completion := completion E;
  completion_perm := completion_perm E;
  workspaceFolders := Some folders;
  isTrusted := trusted;
  findFiles := λ _ _, Some found;
  require_resolve := require_resolve E;
  validateSafeBinaryPath := validateSafeBinaryPath E;
  spawnSync := spawnSync E;
  homedir := homedir E;
  process_env := process_env E;
  execPath := execPath E;
|}.

Definition with_modules (mains : gmap string string) (E : Env) : Env := {|
  platform := platform E;
  readFile := readFile E;
  JSON_parse := JSON_parse E;
  stat := stat E;
  completion := completion E;
  completion_perm := completion_perm E;
  workspaceFolders := workspaceFolders E;
  isTrusted := isTrusted E;
  findFiles := findFiles E;
  require_resolve := λ request _, mains !! request;
  validateSafeBinaryPath := validateSafeBinaryPath E;
  spawnSync := spawnSync E;
  homedir := homedir E;
  process_env := process_env E;
  execPath := execPath E;
|}.

Definition with_process
    (spawns : string → list string → SpawnSyncOptions → option SpawnSyncReturns)
    (variables : gmap string string) (E : Env) : Env := {|
  platform := platform E;
  readFile := readFile E;
  JSON_parse := JSON_parse E;
  stat := stat E;
  completion := completion E;
  completion_perm := completion_perm E;
  workspaceFolders := workspaceFolders E;
  isTrusted := isTrusted E;
  findFiles := findFiles E;
  require_resolve := require_resolve E;
  validateSafeBinaryPath := validateSafeBinaryPath E;
  spawnSync := spawns;
  homedir := homedir E;
  process_env := variables;
  execPath := execPath E;
|}.

(** The same host where [workspace.findFiles] rejects, or where
    [os.homedir] throws. *)
Definition with_host_failures (search_rejected home_unknown : bool) (E : Env)
  : Env := {|
  platform := platform E;
  readFile := readFile E;
  JSON_parse := JSON_parse E;
  stat := stat E;
  completion := completion E;
  completion_perm := completion_perm E;
  workspaceFolders := workspaceFolders E;
  isTrusted := isTrusted E;
  findFiles := if search_rejected then λ _ _, None else findFiles E;
  require_resolve := require_resolve E;
  validateSafeBinaryPath := validateSafeBinaryPath E;
  spawnSync := spawnSync E;
  homedir := if home_unknown then None else homedir E;
  process_env := process_env E;
  execPath := execPath E;
|}.

(** [JSON.stringify({ bin: entry })] *)
Definition manifest_bin_string (entry : string) : string :=
  "{" +:+ dq +:+ "bin" +:+ dq +:+ ":" +:+ dq +:+ entry +:+ dq +:+ "}".

(** [JSON.stringify({ bin: { [name]: entry } })] *)
Definition manifest_bin_record (name entry : string) : string :=
  "{" +:+ dq +:+ "bin" +:+ dq +:+ ":{" +:+ dq +:+ name +:+ dq +:+ ":"
  +:+ dq +:+ entry +:+ dq +:+ "}}".

Definition fresh : State :=
  {| cachedWorkspacePackageJsonNodeModules := None; trace := [] |}.

(** A package whose manifest declares the empty string as its binary. *)
Definition empty_bin : Env :=
  host "linux"
    {[ "/pkg/package.json" := manifest_bin_string "" ]}
    {[ manifest_bin_string "" := Js.JObject [("bin", Js.JString "")] ]}
    ∅.

(** The layout of the unit tests of [replaceTargetFromMainToBin]. *)
Definition oxlint_package : Env :=
  host "linux"
    {[ "/tmp/test-replace-1/node_modules/oxlint/package.json"
       := manifest_bin_record "oxlint" "bin/oxlint.mjs" ]}
    {[ manifest_bin_record "oxlint" "bin/oxlint.mjs"
       := Js.JObject [("bin", Js.JObject [("oxlint", Js.JString "bin/oxlint.mjs")])] ]}
    ∅.

(** A manifest in the root directory itself. *)
Definition root_manifest : Env :=
  host "linux"
    {[ "/package.json" := manifest_bin_string "cli.js" ]}
    {[ manifest_bin_string "cli.js" := Js.JObject [("bin", Js.JString "cli.js")] ]}
    ∅.

(** The workspace of the unit tests of [searchProjectNodeModulesBin],
    where only a shim [node_modules/.bin/fallback-bin-lookup-test] exists. *)
Definition workspace_fallback : Env :=
  with_workspace ["/ws"] true ["/ws/package.json"]
    (host "linux" ∅ ∅ {[ "/ws/node_modules/.bin/fallback-bin-lookup-test" ]}).

(** The same workspace once the nested package of the monorepo test has
    been written. *)
Definition monorepo : Env :=
  with_workspace ["/ws"] true
    ["/ws/package.json"; "/ws/packages/nested-app/package.json"]
    (host "linux" ∅ ∅
       {[ "/ws/packages/nested-app/node_modules/.bin/fallback-nested-bin-lookup-test" ]}).

(** A workspace with nothing installed. *)
Definition bare_workspace : Env :=
  with_workspace ["/ws"] true ["/ws/package.json"] (host "linux" ∅ ∅ ∅).

(** The same workspace when the file search of the editor is rejected. *)
Definition search_rejected : Env := with_host_failures true false bare_workspace.

(** The same workspace on a machine without a home directory: [HOME] is
    unset and the user has no entry in the password database. *)
Definition homeless : Env := with_host_failures false true bare_workspace.

(** [oxlint] installed in the workspace: the package with its manifest,
    and the shim in [node_modules/.bin]. *)
Definition installed : Env :=
  with_modules {[ "oxlint" := "/ws/node_modules/oxlint/dist/index.js" ]}
    (with_workspace ["/ws"] true ["/ws/package.json"]
       (host "linux"
          {[ "/ws/node_modules/oxlint/package.json"
             := manifest_bin_record "oxlint" "bin/oxlint" ]}
          {[ manifest_bin_record "oxlint" "bin/oxlint"
             := Js.JObject [("bin", Js.JObject [("oxlint", Js.JString "bin/oxlint")])] ]}
          {[ "/ws/node_modules/.bin/oxlint" ]})).

(** Two packages of a Windows workspace: the first holds [oxlint.exe],
    the second a plain [oxlint]. *)
Definition two_installs : Env :=
  host "win32" ∅ ∅
    {[ "/ws/a/node_modules/.bin/oxlint.exe"; "/ws/b/node_modules/.bin/oxlint" ]}.

(** An untrusted workspace on a machine where the configured binary
    exists. *)
Definition untrusted_install : Env :=
  with_workspace ["/ws"] false [] (host "linux" ∅ ∅ {[ "/usr/local/bin/oxlint" ]}).

(** A Windows machine holding [oxlint.exe.exe] and no [oxlint.exe]. *)
Definition double_exe : Env :=
  with_workspace ["/ws"] true [] (host "win32" ∅ ∅ {[ "/opt/oxc/oxlint.exe.exe" ]}).

(** A workspace whose first folder has the empty path. *)
Definition rootless : Env :=
  with_workspace [""] true [] (host "linux" ∅ ∅ {[ "bin/oxlint" ]}).

(** A trusted workspace with the shim in place; the setting names it the
    Windows way. *)
Definition shim_in_workspace : Env :=
  with_workspace ["/ws"] true [] (host "linux" ∅ ∅ {[ "/ws/node_modules/.bin/oxlint" ]}).

(** A child that exits with [code] after printing [output]. *)
Definition exited (code : Z) (output : string) : SpawnSyncReturns :=
  {| error := false; status := Some code; stdout := output; stderr := "" |}.

Definition unix_variables : gmap string string :=
  {[ "PATH" := "/usr/bin:/bin"; "SHELL" := "/bin/zsh" ]}.

(** The stub of the unit test "should fall back to searching node in
    login shell when not in PATH". *)
Definition node_in_login_shell : Env :=
  with_process
    (λ command _ _,
       if String.eqb command "node" then Some (exited 1 "")
       else if String.eqb command "/bin/zsh" then
         Some (exited 0 ("noise" +:+ LspHelper.LF +:+ "/opt/homebrew/bin/node"
                         +:+ LspHelper.LF))
       else Some (exited 1 ""))
    unix_variables (host "linux" ∅ ∅ ∅).

(** The stub of the unit test "should set ELECTRON_RUN_AS_NODE when
    falling back to process.execPath": every subprocess exits with 1. *)
Definition node_nowhere : Env :=
  with_process (λ _ _ _, Some (exited 1 "")) unix_variables (host "linux" ∅ ∅ ∅).

(** A machine with [node] on the PATH. *)
Definition node_on_path : Env :=
  with_process (λ _ _ _, Some (exited 0 ("v22.0.0" +:+ LspHelper.LF)))
    unix_variables (host "linux" ∅ ∅ ∅).

(** The unit tests that set [process.platform] to ["win32"]. *)
Definition as_windows : Env :=
  with_process (λ _ _ _, Some (exited 0 ("v22.0.0" +:+ LspHelper.LF)))
    unix_variables (host "win32" ∅ ∅ ∅).

End Fixture.

(** ** Manifest-based resolution *)

Module ManifestResolution.
Import Fixture.

#[local] Existing Instance node_path.

(** C1 (counterexample).  The manifest nearest to [/pkg/dist/index.js]
    is [/pkg/package.json]; its [bin] field is a plain string, the empty
    one.  The result is not that entry resolved against [/pkg]: the
    falsy entry raises the missing-entry error. *)
Lemma empty_bin_string_is_rejected :
  readFile empty_bin (manifest_of "/pkg/dist") = None
  ∧ readFile empty_bin (manifest_of "/pkg") = Some (manifest_bin_string "")
  ∧ JSON_parse empty_bin (manifest_bin_string "")
    = Some (Js.JObject [("bin", Js.JString "")])
  ∧ (replaceTargetFromMainToBin empty_bin "/pkg/dist/index.js" "oxlint" fresh).1
    = Throw (no_bin_entry "oxlint")
  ∧ (replaceTargetFromMainToBin empty_bin "/pkg/dist/index.js" "oxlint" fresh).1
    ≠ Return (resolve ["/pkg"; ""]).
Proof. repeat split; try by vm_compute. Qed.

End ManifestResolution.

(** C1 (amended).  Let the [n]-th directory above the starting file be
    the innermost one with a readable [package.json], let none of the
    directories up to it be its own parent, and let the file parse to an
    object.  Then that manifest decides alone, whatever lies further out.
    A [bin] member that is a non-empty string is resolved against that
    directory for every binary name.  A [bin] member that is an object
    gives its own member of the queried name, when that is a non-empty
    string, resolved the same way.  The missing-entry error is raised
    when [bin] is missing, [null] or the empty string, and when [bin] is
    an object whose own member of the queried name is the empty string or
    [null], or which has no such member while the name is none that
    every object inherits.  In every case exactly the [n + 1] manifests
    up to that directory have been read. *)
Theorem nearest_manifest_below_root_decides `{PathModule} (E : Env)
    (resolvedPath binaryName : string) (n : nat) (rawContent : string)
    (members : list (string * Js.Json)) (s : State) :
  let dir := dirname resolvedPath in
  (∀ i, i ≤ n → ancestor i dir ≠ dirname (ancestor i dir)) →
  (∀ i, i < n → readFile E (manifest_of (ancestor i dir)) = None) →
  readFile E (manifest_of (ancestor n dir)) = Some rawContent →
  JSON_parse E rawContent = Some (Js.JObject members) →
  let run := replaceTargetFromMainToBin E resolvedPath binaryName s in
  let bin := Js.own "bin" members in
  (∀ entry, bin = Some (Js.JString entry) → entry ≠ "" →
     run.1 = Return (resolve [ancestor n dir; entry]))
  ∧ (∀ entries entry,
       bin = Some (Js.JObject entries) →
       Js.own binaryName entries = Some (Js.JString entry) → entry ≠ "" →
       run.1 = Return (resolve [ancestor n dir; entry]))
  ∧ (bin = None ∨ bin = Some Js.JNull ∨ bin = Some (Js.JString "")
     ∨ (∃ entries, bin = Some (Js.JObject entries)
          ∧ (Js.own binaryName entries = Some (Js.JString "")
             ∨ Js.own binaryName entries = Some Js.JNull
             ∨ (Js.own binaryName entries = None
                ∧ binaryName ∉ Js.object_prototype))) →
     run.1 = Throw (no_bin_entry binaryName))
  ∧ trace run.2
    = trace s ++ map (λ i, EvReadFile (manifest_of (ancestor i dir))) (seq 0 (S n)).
Proof.
  intros dir Hbelow Hnone Hread Hparse run bin.
  pose proof (replaceTarget_found E resolvedPath binaryName n rawContent s
                Hbelow Hnone Hread) as Hrun.
  fold dir in Hrun. fold run in Hrun. rewrite Hrun. clear Hrun run.
  repeat split.
  - intros entry Hbin Hne.
    rewrite (bin_from_manifest_entry E _ _ _ members entry); [done..| |done].
    fold bin. by rewrite Hbin.
  - intros entries entry Hbin Hentry Hne.
    rewrite (bin_from_manifest_entry E _ _ _ members entry); [done..| |done].
    fold bin. rewrite Hbin. simpl. unfold Js.get_object. by rewrite Hentry.
  - intros Hmissing.
    rewrite (bin_from_manifest_missing E _ _ _ members); [done..|].
    fold bin.
    destruct Hmissing
      as [-> | [-> | [-> | (entries & -> & [Hown | [Hown | [Hown Hname]]])]]];
      try done.
    all: simpl; unfold Js.get_object; rewrite Hown; try done.
    unfold Js.inherited. by rewrite bool_decide_eq_false_2.
  - by destruct (bin_from_manifest_settles E (ancestor n dir) binaryName rawContent
                   (logs (reads (S n) dir) s)) as [_ ->].
Qed.

Module ManifestResolutionWitness.
Import Fixture.
#[local] Existing Instance node_path.

Definition main_file : string :=
  "/tmp/test-replace-1/node_modules/oxlint/dist/index.js".

(** The first unit test of [replaceTargetFromMainToBin]: the manifest one
    level above [dist] maps [oxlint] to [bin/oxlint.mjs]. *)
Lemma nearest_manifest_resolves_oxlint :
  (replaceTargetFromMainToBin oxlint_package main_file "oxlint" fresh).1
  = Return "/tmp/test-replace-1/node_modules/oxlint/bin/oxlint.mjs".
Proof.
  refine (proj1 (proj2
    (nearest_manifest_below_root_decides oxlint_package main_file "oxlint" 1
       (manifest_bin_record "oxlint" "bin/oxlint.mjs")
       [("bin", Js.JObject [("oxlint", Js.JString "bin/oxlint.mjs")])]
       fresh _ _ _ _)) [("oxlint", Js.JString "bin/oxlint.mjs")] "bin/oxlint.mjs" _ _ _).
  - intros [|[|i]] Hi; [by vm_compute | by vm_compute | lia].
  - intros [|i] Hi; [by vm_compute | lia].
  - by vm_compute.
  - by vm_compute.
  - reflexivity.
  - reflexivity.
  - discriminate.
Defined.

End ManifestResolutionWitness.

(** Where the entry read from the manifest is truthy and no string, it is
    [path.resolve] that throws.  This is what happens for a name every
    object inherits when the mapping has no own member of that name, and
    for a manifest whose text is [null]. *)
Lemma inherited_name_raises_type_error `{PathModule} (E : Env)
    (resolvedPath binaryName : string) (n : nat) (rawContent : string)
    (members entries : list (string * Js.Json)) (s : State) :
  let dir := dirname resolvedPath in
  (∀ i, i ≤ n → ancestor i dir ≠ dirname (ancestor i dir)) →
  (∀ i, i < n → readFile E (manifest_of (ancestor i dir)) = None) →
  readFile E (manifest_of (ancestor n dir)) = Some rawContent →
  JSON_parse E rawContent = Some (Js.JObject members) →
  Js.own "bin" members = Some (Js.JObject entries) →
  Js.own binaryName entries = None →
  binaryName ∈ Js.object_prototype →
  (replaceTargetFromMainToBin E resolvedPath binaryName s).1 = Throw TypeError.
Proof.
  intros dir Hbelow Hnone Hread Hparse Hbin Hown Hname.
  rewrite (replaceTarget_found E resolvedPath binaryName n rawContent s
             Hbelow Hnone Hread).
  assert (binEntry (Js.own "bin" members) binaryName = Js.BuiltIn binaryName)
    as Hentry.
  { rewrite Hbin. simpl. unfold Js.get_object, Js.inherited.
    by rewrite Hown, bool_decide_eq_true_2. }
  rewrite (bin_from_manifest_not_a_string E _ _ _ members); [done..| |];
    by rewrite Hentry.
Qed.

Lemma null_manifest_raises_type_error `{PathModule} (E : Env)
    (resolvedPath binaryName : string) (n : nat) (rawContent : string) (s : State) :
  let dir := dirname resolvedPath in
  (∀ i, i ≤ n → ancestor i dir ≠ dirname (ancestor i dir)) →
  (∀ i, i < n → readFile E (manifest_of (ancestor i dir)) = None) →
  readFile E (manifest_of (ancestor n dir)) = Some rawContent →
  JSON_parse E rawContent = Some Js.JNull →
  (replaceTargetFromMainToBin E resolvedPath binaryName s).1 = Throw TypeError.
Proof.
  intros dir Hbelow Hnone Hread Hparse.
  rewrite (replaceTarget_found E resolvedPath binaryName n rawContent s
             Hbelow Hnone Hread).
  by rewrite bin_from_manifest_null.
Qed.

Module InheritedNames.
Import Fixture.
#[local] Existing Instance node_path.
Import ManifestResolutionWitness.

(** The manifest of the unit tests maps [oxlint] only.  A name it lacks
    gives the missing-entry error, unless every object inherits a member
    of that name. *)
Example other_name_is_missing :
  (replaceTargetFromMainToBin oxlint_package main_file "oxfmt" fresh).1
  = Throw (no_bin_entry "oxfmt").
Proof. by vm_compute. Qed.

Example constructor_is_no_missing_entry :
  (replaceTargetFromMainToBin oxlint_package main_file "constructor" fresh).1
  = Throw TypeError
  ∧ (replaceTargetFromMainToBin oxlint_package main_file "toString" fresh).1
    = Throw TypeError
  ∧ (replaceTargetFromMainToBin oxlint_package main_file "__proto__" fresh).1
    = Throw TypeError.
Proof. repeat split; by vm_compute. Qed.

(** A manifest whose text is [null], and one whose [bin] is a list. *)
Definition odd_manifests : Env :=
  host "linux"
    {[ "/a/package.json" := "null";
       "/b/package.json" := "{" +:+ dq +:+ "bin" +:+ dq +:+ ":[" +:+ dq
                            +:+ "cli.js" +:+ dq +:+ "]}" ]}
    {[ "null" := Js.JNull;
       "{" +:+ dq +:+ "bin" +:+ dq +:+ ":[" +:+ dq +:+ "cli.js" +:+ dq +:+ "]}"
       := Js.JObject [("bin", Js.JArray [Js.JString "cli.js"])] ]}
    ∅.

Example null_manifest :
  (replaceTargetFromMainToBin odd_manifests "/a/index.js" "oxlint" fresh).1
  = Throw TypeError.
Proof. by vm_compute. Qed.

Example list_for_bin :
  (replaceTargetFromMainToBin odd_manifests "/b/index.js" "oxlint" fresh).1
  = Throw (no_bin_entry "oxlint")
  ∧ (replaceTargetFromMainToBin odd_manifests "/b/index.js" "0" fresh).1
    = Return "/b/cli.js"
  ∧ (replaceTargetFromMainToBin odd_manifests "/b/index.js" "length" fresh).1
    = Throw TypeError
  ∧ (replaceTargetFromMainToBin odd_manifests "/b/index.js" "map" fresh).1
    = Throw TypeError.
Proof. repeat split; by vm_compute. Qed.

End InheritedNames.

Module RootManifest.
Import Fixture.
#[local] Existing Instance node_path.

(** C2 (failing input).  With a readable, well-formed [/package.json]
    the walk from [/index.js] reads nothing at all, and the walk from
    [/app/src/index.js] reads the two manifests below the root and stops:
    both report that no [package.json] could be found. *)
Theorem root_manifest_is_never_read :
  readFile root_manifest (manifest_of "/") = Some (manifest_bin_string "cli.js")
  ∧ JSON_parse root_manifest (manifest_bin_string "cli.js")
    = Some (Js.JObject [("bin", Js.JString "cli.js")])
  ∧ replaceTargetFromMainToBin root_manifest "/index.js" "tool" fresh
    = (Throw (no_package_json "tool"), fresh)
  ∧ replaceTargetFromMainToBin root_manifest "/app/src/index.js" "tool" fresh
    = (Throw (no_package_json "tool"),
       logs [EvReadFile "/app/src/package.json"; EvReadFile "/app/package.json"]
            fresh).
Proof. repeat split; by vm_compute. Qed.

End RootManifest.

(** Without a readable manifest in any directory of the walk that is not
    its own parent, the resolution fails with the not-found error, and it
    always terminates.  Nothing is asked of the manifest of a directory
    that is its own parent. *)
Lemma no_manifest_below_root `{PathModule} (E : Env)
    (resolvedPath binaryName : string) (s : State) :
  let dir := dirname resolvedPath in
  (∀ i, ancestor i dir ≠ dirname (ancestor i dir) →
        readFile E (manifest_of (ancestor i dir)) = None) →
  (replaceTargetFromMainToBin E resolvedPath binaryName s).1
  = Throw (no_package_json binaryName).
Proof.
  intros dir Hnone.
  destruct (reaches_root dir) as (n & Hbelow & Hroot).
  rewrite (replaceTarget_not_found E resolvedPath binaryName n); [done..| |done].
  intros i Hi. apply Hnone, Hbelow, Hi.
Qed.

(** ** The candidate probe *)

Lemma find_first {A} (f : A → bool) (l : list A) :
  match find f l with
  | Some x => ∃ i, l !! i = Some x ∧ f x = true
                   ∧ ∀ j y, j < i → l !! j = Some y → f y = false
  | None => ∀ x, x ∈ l → f x = false
  end.
Proof.
  pose proof (findIndex_from_find f l 0 ltac:(lia)) as Hfind.
  destruct (find f l) as [x|] eqn:Hx.
  - destruct Hfind as (k & _ & ? & ? & ?). by exists k.
  - intros x Hin. apply (find_none f l Hx). by apply list_elem_of_In.
Qed.

(** C3.  The candidates are, folder by folder in the caller's order, the
    path [<folder>/.bin/<binaryName>] followed on Windows (and only
    there) by the same path with [.exe] appended.  One existence check is
    issued per candidate; the result is the candidate of least position
    whose check succeeded, or [undefined] when every check failed.  The
    result is the same on every host with the same platform and the same
    file system, whatever the order in which the checks settle there. *)
Theorem probe_returns_first_existing_candidate `{PathModule} (E : Env)
    (binaryName : string) (folders : list string) (s : State) :
  let candidates := bin_candidates E binaryName folders in
  let run := searchNodeModulesDefaultBinPath E binaryName folders s in
  candidates
  = flat_map (λ folder,
      join [folder; ".bin"; binaryName]
      :: (if String.eqb (platform E) "win32"
          then [join [folder; ".bin"; binaryName] +:+ ".exe"] else [])) folders
  ∧ trace run.2 = trace s ++ map EvStat candidates
  ∧ (∃ result, run.1 = Return result ∧
       match result with
       | Some candidate =>
           ∃ i, candidates !! i = Some candidate ∧ stat E candidate = true
                ∧ ∀ j earlier, j < i → candidates !! j = Some earlier →
                               stat E earlier = false
       | None => ∀ candidate, candidate ∈ candidates → stat E candidate = false
       end)
  ∧ (∀ E' : Env, platform E' = platform E → (∀ path, stat E' path = stat E path) →
       (searchNodeModulesDefaultBinPath E' binaryName folders s).1 = run.1).
Proof.
  intros candidates run. subst run.
  rewrite searchNodeModulesDefaultBinPath_run. fold candidates.
  split; [|split; [done|split]].
  - subst candidates. unfold bin_candidates, is_win32.
    induction folders as [|folder folders IH]; simpl; [done|].
    rewrite IH. by destruct (String.eqb (platform E) "win32").
  - exists (find (stat E) candidates). split; [done|].
    apply find_first.
  - intros E' Hplatform Hstat. rewrite searchNodeModulesDefaultBinPath_run. simpl.
    assert (bin_candidates E' binaryName folders = candidates) as ->.
    { subst candidates. unfold bin_candidates, is_win32. by rewrite Hplatform. }
    f_equal. clear -Hstat. induction candidates as [|c cs IH]; simpl; [done|].
    by rewrite Hstat, IH.
Qed.

(** ** The locators *)

Section Locators.
Context `{PathModule} (E : Env).
Implicit Types (binaryName : string) (s : State).

(** Tier 1 of both package locators: module resolution over [paths], fed
    into manifest-based resolution. *)
Definition manifest_tier (binaryName : string) (paths : list string) : M string :=
  main ← resolve_module E binaryName paths;
  replaceTargetFromMainToBin E main binaryName.

(** The events tier 1 can issue. *)
Definition manifest_tier_event (e : Event) : Prop :=
  match e with
  | EvRequireResolve _ _ | EvReadFile _ => True
  | _ => False
  end.

Lemma manifest_tier_unresolved binaryName paths s :
  require_resolve E binaryName paths = None →
  manifest_tier binaryName paths s
  = (Throw (ModuleNotFound binaryName), logs [EvRequireResolve binaryName paths] s).
Proof.
  intros Hnone. unfold manifest_tier, resolve_module. unfold_monad.
  by rewrite Hnone.
Qed.

Lemma manifest_tier_resolved binaryName paths main s :
  require_resolve E binaryName paths = Some main →
  manifest_tier binaryName paths s
  = replaceTargetFromMainToBin E main binaryName
      (logs [EvRequireResolve binaryName paths] s).
Proof.
  intros Hmain. unfold manifest_tier, resolve_module. unfold_monad.
  by rewrite Hmain.
Qed.

Lemma manifest_tier_settles binaryName paths s :
  (manifest_tier binaryName paths s).1 ≠ Diverge
  ∧ ∃ events, (manifest_tier binaryName paths s).2 = logs events s
              ∧ Forall manifest_tier_event events.
Proof.
  destruct (require_resolve E binaryName paths) as [main|] eqn:Hmain.
  - rewrite (manifest_tier_resolved _ _ main) by done.
    destruct (replaceTarget_settles E main binaryName
                (logs [EvRequireResolve binaryName paths] s)) as [Hok [n ->]].
    split; [done|]. eexists. rewrite logs_logs. split; [done|].
    constructor; [done|]. unfold reads. by apply Forall_fmap, Forall_true.
  - rewrite manifest_tier_unresolved by done. split; [done|].
    eexists. split; [done|]. by repeat constructor.
Qed.

Lemma bin_candidates_nonempty binaryName folders candidate :
  candidate ∈ bin_candidates E binaryName folders → candidate ≠ "".
Proof.
  unfold bin_candidates. rewrite list_elem_of_In, in_flat_map.
  intros (folder & _ & Hin).
  pose proof (join_nonempty [folder; ".bin"; binaryName]) as Hjoin.
  destruct (is_win32 E); simpl in Hin.
  - destruct Hin as [<- | [<- | []]]; [done|].
    by apply PosixFacts.append_nonempty_l.
  - by destruct Hin as [<- | []].
Qed.

Lemma probe_hit_truthy binaryName folders candidate :
  find (stat E) (bin_candidates E binaryName folders) = Some candidate →
  Js.truthy (Some candidate) = true.
Proof.
  intros Hfind. apply find_some in Hfind as [Hin _].
  apply list_elem_of_In, bin_candidates_nonempty in Hin.
  simpl. by destruct (String.eqb_spec candidate "").
Qed.

Definition workspace_node_modules : list string :=
  map (λ folder, join [folder; "node_modules"]) (workspace_roots E).

(** What [searchProjectNodeModulesBin] does after each outcome of tier 1. *)
Lemma searchProjectNodeModulesBin_run binaryName s :
  searchProjectNodeModulesBin E binaryName s
  = match manifest_tier binaryName (workspace_roots E) s with
    | (Return resolvedPath, s1) => (Return (Some resolvedPath), s1)
    | (Throw _, s1) =>
        let direct := bin_candidates E binaryName workspace_node_modules in
        let s2 := logs (map EvStat direct) s1 in
        match find (stat E) direct with
        | Some candidate => (Return (Some candidate), s2)
        | None =>
            match getWorkspacePackageJsonNodeModules E s2 with
            | (Return (Fulfilled dirs), s3) =>
                (Return (find (stat E) (bin_candidates E binaryName dirs)),
                 logs (map EvStat (bin_candidates E binaryName dirs)) s3)
            | (Return (Rejected reason), s3) => (Throw reason, s3)
            | (Throw e, s3) => (Throw e, s3)
            | (Diverge, s3) => (Diverge, s3)
            end
        end
    | (Diverge, s1) => (Diverge, s1)
    end.
Proof.
  assert (∀ candidate,
            find (stat E) (bin_candidates E binaryName workspace_node_modules)
            = Some candidate → Js.truthy (Some candidate) = true) as Htruthy
    by (intros candidate; apply probe_hit_truthy).
  unfold searchProjectNodeModulesBin, manifest_tier, try_catch.
  unfold mbind, M_bind, bind. fold workspace_node_modules.
  destruct (resolve_module E binaryName (workspace_roots E) s) as [[main|e|] s0];
    [destruct (replaceTargetFromMainToBin E main binaryName s0) as [[p|e|] s1]| |];
    try done.
  all: rewrite searchNodeModulesDefaultBinPath_run; cbv zeta.
  all: destruct (find _ _) as [candidate|];
    [by rewrite (Htruthy candidate)|simpl].
  all: destruct (getWorkspacePackageJsonNodeModules E _) as [[[dirs|reason]|e'|] s3];
    [|done..].
  all: unfold await, ret; by rewrite searchNodeModulesDefaultBinPath_run.
Qed.

Lemma getWorkspacePackageJsonNodeModules_returns s :
  ∃ promise s', getWorkspacePackageJsonNodeModules E s = (Return promise, s').
Proof.
  unfold getWorkspacePackageJsonNodeModules.
  destruct (cachedWorkspacePackageJsonNodeModules s); eauto.
Qed.

(** The home directory, and with it the list of global roots, is known
    or the query throws after the two subprocesses have run. *)
Lemma os_homedir_run s :
  os_homedir E s
  = (match homedir E with
     | Some home => Return home
     | None => Throw (SystemError "uv_os_homedir")
     end, s).
Proof. unfold os_homedir. by destruct (homedir E). Qed.

Lemma safeSpawnSync_returns command args s :
  ∃ output, safeSpawnSync E command args s
    = (Return output,
       logs [EvSpawnSync command args
               {| shell := true; timeout := None; encoding := "utf8" |}] s).
Proof.
  unfold safeSpawnSync, spawn. unfold_monad.
  destruct (spawnSync E command args _) as [result|]; [|eauto].
  destruct (error result || _); eauto.
Qed.

Lemma globalNodeModulesPaths_returns s :
  is_Some (homedir E) →
  ∃ globalPaths s', globalNodeModulesPaths E s = (Return globalPaths, s').
Proof.
  intros [home Hhome].
  unfold globalNodeModulesPaths. unfold mbind, M_bind, bind.
  destruct (safeSpawnSync_returns "npm" ["root"; "-g"] s) as [npm ->].
  destruct (safeSpawnSync_returns "pnpm" ["root"; "-g"]
              (logs [EvSpawnSync "npm" ["root"; "-g"]
                       {| shell := true; timeout := None; encoding := "utf8" |}] s))
    as [pnpm ->].
  rewrite os_homedir_run, Hhome.
  unfold mret, M_ret, ret. eauto.
Qed.

Lemma globalNodeModulesPaths_throws s :
  homedir E = None →
  ∃ s', globalNodeModulesPaths E s = (Throw (SystemError "uv_os_homedir"), s').
Proof.
  intros Hhome.
  unfold globalNodeModulesPaths. unfold mbind, M_bind, bind.
  destruct (safeSpawnSync_returns "npm" ["root"; "-g"] s) as [npm ->].
  destruct (safeSpawnSync_returns "pnpm" ["root"; "-g"]
              (logs [EvSpawnSync "npm" ["root"; "-g"]
                       {| shell := true; timeout := None; encoding := "utf8" |}] s))
    as [pnpm ->].
  rewrite os_homedir_run, Hhome. eauto.
Qed.

Lemma searchGlobalNodeModulesBin_throws binaryName s e s0 :
  globalNodeModulesPaths E s = (Throw e, s0) →
  searchGlobalNodeModulesBin E binaryName s = (Throw e, s0).
Proof.
  intros Hpaths. unfold searchGlobalNodeModulesBin.
  unfold mbind, M_bind, bind. by rewrite Hpaths.
Qed.

Lemma searchGlobalNodeModulesBin_run binaryName s globalPaths s0 :
  globalNodeModulesPaths E s = (Return globalPaths, s0) →
  searchGlobalNodeModulesBin E binaryName s
  = match manifest_tier binaryName globalPaths s0 with
    | (Return resolvedPath, s1) => (Return (Some resolvedPath), s1)
    | (Throw _, s1) =>
        (Return (find (stat E) (bin_candidates E binaryName globalPaths)),
         logs (map EvStat (bin_candidates E binaryName globalPaths)) s1)
    | (Diverge, s1) => (Diverge, s1)
    end.
Proof.
  intros Hpaths.
  unfold searchGlobalNodeModulesBin, manifest_tier, try_catch.
  unfold mbind, M_bind, bind. rewrite Hpaths.
  destruct (resolve_module E binaryName globalPaths s0) as [[main|e|] s1];
    [|apply searchNodeModulesDefaultBinPath_run|done].
  destruct (replaceTargetFromMainToBin E main binaryName s1) as [[p|e|] s2];
    [done|apply searchNodeModulesDefaultBinPath_run|done].
Qed.

Lemma path_exists_run path s :
  path_exists E path s = (Return (stat E path), logs [EvStat path] s).
Proof.
  unfold path_exists, fs_stat. unfold_monad. by destruct (stat E path).
Qed.

Lemma searchSettingsBin_returns settingsBinary s :
  ∃ result s', searchSettingsBin E settingsBinary s = (Return result, s').
Proof.
  unfold searchSettingsBin.
  destruct (isTrusted E); simpl; [|unfold ret; eauto].
  unfold validate. unfold mbind, M_bind. unfold bind at 1. unfold bind at 1.
  unfold emit, mret, M_ret. unfold ret at 1.
  destruct (validateSafeBinaryPath E settingsBinary); simpl; [|unfold ret; eauto].
  destruct (settings_target E settingsBinary) as [target|]; [|unfold ret; eauto].
  unfold bind at 1. rewrite path_exists_run.
  destruct (stat E target); [unfold ret; eauto|].
  destruct (is_win32 E); [|unfold ret; eauto].
  unfold bind at 1. rewrite path_exists_run.
  destruct (stat E _); unfold ret; eauto.
Qed.

End Locators.

Section LocatorClaims.
Context `{PathModule} (E : Env).
Implicit Types (binaryName : string) (s : State).

(** No package for [binaryName] can be reached: whenever module
    resolution finds a main file, manifest-based resolution from it
    fails, and no dependency directory holds a shim of that name. *)
Definition unreachable (binaryName : string) : Prop :=
  (∀ paths main s resolvedPath,
     require_resolve E binaryName paths = Some main →
     (replaceTargetFromMainToBin E main binaryName s).1 ≠ Return resolvedPath)
  ∧ ∀ folder,
      stat E (join [folder; ".bin"; binaryName]) = false
      ∧ stat E (join [folder; ".bin"; binaryName] +:+ ".exe") = false.

Lemma unreachable_manifest_tier binaryName paths s resolvedPath :
  unreachable binaryName →
  (manifest_tier E binaryName paths s).1 ≠ Return resolvedPath.
Proof.
  intros [Htier _].
  destruct (require_resolve E binaryName paths) as [main|] eqn:Hmain.
  - rewrite (manifest_tier_resolved _ _ _ main) by done. by eapply Htier.
  - by rewrite manifest_tier_unresolved.
Qed.

Lemma unreachable_probe binaryName folders :
  unreachable binaryName →
  find (stat E) (bin_candidates E binaryName folders) = None.
Proof.
  intros [_ Hnone]. unfold bin_candidates.
  induction folders as [|folder folders IH]; simpl; [done|].
  destruct (Hnone folder) as [Hbase Hexe].
  destruct (is_win32 E); simpl; by rewrite Hbase, ?Hexe.
Qed.

(** The promise the manifest index holds, or would hold after a search
    on this host. *)
Definition index_promise (s : State) : Promise (list string) :=
  match cachedWorkspacePackageJsonNodeModules s with
  | Some promise => promise
  | None => search_manifests E "**/package.json" "**/node_modules/**"
  end.

Lemma getWorkspacePackageJsonNodeModules_promise s :
  (getWorkspacePackageJsonNodeModules E s).1 = Return (index_promise s).
Proof.
  unfold getWorkspacePackageJsonNodeModules, index_promise.
  by destruct (cachedWorkspacePackageJsonNodeModules s).
Qed.

(** The outcome of the project locator, tier by tier. *)
Lemma searchProjectNodeModulesBin_outcome binaryName s :
  (searchProjectNodeModulesBin E binaryName s).1
  = match (manifest_tier E binaryName (workspace_roots E) s).1 with
    | Return resolvedPath => Return (Some resolvedPath)
    | Throw _ =>
        match find (stat E) (bin_candidates E binaryName (workspace_node_modules E)) with
        | Some candidate => Return (Some candidate)
        | None =>
            match index_promise s with
            | Fulfilled dirs => Return (find (stat E) (bin_candidates E binaryName dirs))
            | Rejected reason => Throw reason
            end
        end
    | Diverge => Diverge
    end.
Proof.
  rewrite searchProjectNodeModulesBin_run.
  destruct (manifest_tier_settles E binaryName (workspace_roots E) s)
    as [_ (events & Hstate & _)].
  destruct (manifest_tier E binaryName (workspace_roots E) s) as [[p|e|] s1];
    [done| |done].
  simpl in Hstate. subst s1. cbv zeta. destruct (find _ _); [done|].
  pose proof (getWorkspacePackageJsonNodeModules_promise
                (logs (map EvStat (bin_candidates E binaryName (workspace_node_modules E)))
                      (logs events s))) as Hindex.
  destruct (getWorkspacePackageJsonNodeModules E _) as [outcome s3].
  simpl in Hindex. subst outcome.
  change (index_promise (logs _ (logs events s))) with (index_promise s).
  by destruct (index_promise s).
Qed.

Lemma searchGlobalNodeModulesBin_unreachable binaryName s :
  unreachable binaryName →
  is_Some (homedir E) →
  (searchGlobalNodeModulesBin E binaryName s).1 = Return None.
Proof.
  intros Hun Hhome.
  destruct (globalNodeModulesPaths_returns E s Hhome) as (globalPaths & s0 & Hpaths).
  rewrite (searchGlobalNodeModulesBin_run E binaryName s globalPaths s0 Hpaths).
  pose proof (unreachable_manifest_tier binaryName globalPaths s0) as Htier.
  destruct (manifest_tier_settles E binaryName globalPaths s0) as [Hok _].
  destruct (manifest_tier E binaryName globalPaths s0) as [[p|e|] s1];
    [by destruct (Htier p Hun)| |done].
  simpl. by rewrite unreachable_probe.
Qed.

Lemma searchGlobalNodeModulesBin_returns binaryName s :
  is_Some (homedir E) →
  ∃ result s', searchGlobalNodeModulesBin E binaryName s = (Return result, s').
Proof.
  intros Hhome.
  destruct (globalNodeModulesPaths_returns E s Hhome) as (globalPaths & s0 & Hpaths).
  rewrite (searchGlobalNodeModulesBin_run E binaryName s globalPaths s0 Hpaths).
  destruct (manifest_tier_settles E binaryName globalPaths s0) as [Hok _].
  destruct (manifest_tier E binaryName globalPaths s0) as [[p|e|] s1];
    [eauto|eauto|done].
Qed.

(** C5.  The three tiers of the project locator run in strict order.
    When tier 1 (module resolution over the workspace roots, then
    manifest-based resolution) returns a path, that path is the result
    and nothing further happens.  Only when tier 1 throws are the
    [node_modules/.bin] directories of the workspace roots probed; a hit
    there is the result, and the manifest index is neither consulted nor
    filled.  Only when that probe finds nothing is the index consulted
    and, its promise being fulfilled, its directories probed, whose first
    hit (or [undefined]) is the result; a rejected promise is thrown on
    as it is.  Tier 1 itself issues no existence check and no workspace
    search and leaves the memo as it was. *)
Theorem project_tiers_in_strict_order (binaryName : string) (s : State) :
  let roots := default [] (workspaceFolders E) in
  let run := searchProjectNodeModulesBin E binaryName s in
  let tier1 := manifest_tier E binaryName roots s in
  let direct :=
    bin_candidates E binaryName (map (λ folder, join [folder; "node_modules"]) roots) in
  let after_direct := logs (map EvStat direct) tier1.2 in
  (∀ resolvedPath, tier1.1 = Return resolvedPath →
     run = (Return (Some resolvedPath), tier1.2))
  ∧ (∀ e candidate, tier1.1 = Throw e → find (stat E) direct = Some candidate →
       run = (Return (Some candidate), after_direct))
  ∧ (∀ e, tier1.1 = Throw e → find (stat E) direct = None →
       ∃ promise s3,
         getWorkspacePackageJsonNodeModules E after_direct = (Return promise, s3)
         ∧ match promise with
           | Fulfilled dirs =>
               run = (Return (find (stat E) (bin_candidates E binaryName dirs)),
                      logs (map EvStat (bin_candidates E binaryName dirs)) s3)
           | Rejected reason => run = (Throw reason, s3)
           end)
  ∧ (∃ events, tier1.2 = logs events s ∧ Forall manifest_tier_event events).
Proof.
  intros roots run tier1 direct after_direct.
  pose proof (searchProjectNodeModulesBin_run E binaryName s) as Hrun.
  fold run in Hrun. unfold workspace_node_modules, workspace_roots in Hrun.
  fold roots in Hrun. fold tier1 in Hrun. fold direct in Hrun.
  destruct (manifest_tier_settles E binaryName roots s) as [_ Hevents].
  fold tier1 in Hevents.
  destruct tier1 as [outcome s1]. simpl in *.
  repeat split; [| | |done].
  - by intros resolvedPath ->.
  - intros e candidate -> Hhit. by rewrite Hhit in Hrun.
  - intros e -> Hmiss. rewrite Hmiss in Hrun.
    destruct (getWorkspacePackageJsonNodeModules_returns E after_direct)
      as (promise & s3 & Hindex).
    exists promise, s3. split; [done|].
    subst after_direct. simpl in Hindex. rewrite Hindex in Hrun.
    by destruct promise.
Qed.

End LocatorClaims.

(** ** The workspace manifest index *)

(** C6.  Whatever the state before, a second call returns what the first
    call returned and changes nothing, not even the log: no new search is
    issued, so manifests that only the second host snapshot [E2] has
    are not reflected.  Clearing empties the memo whatever it held and
    issues nothing.  The call after clearing searches the host as it is
    then ([E3]), returns the promise of one [node_modules] directory per
    manifest found there (rejected if that search is), and logs that one
    search.  A call on an empty memo does the same on its own snapshot. *)
Theorem manifest_index_is_memoized `{PathModule} (E1 E2 E3 : Env) (s : State) :
  let include := "**/package.json" in
  let exclude := "**/node_modules/**" in
  let searched (E : Env) :=
    match findFiles E include exclude with
    | Some uris =>
        Fulfilled (map (λ fsPath, join [dirname fsPath; "node_modules"]) uris)
    | None => Rejected (SearchError include)
    end in
  let first := getWorkspacePackageJsonNodeModules E1 s in
  let second := getWorkspacePackageJsonNodeModules E2 first.2 in
  let cleared := clearWorkspacePackageJsonNodeModulesCache second.2 in
  let third := getWorkspacePackageJsonNodeModules E3 cleared.2 in
  second = first
  ∧ cachedWorkspacePackageJsonNodeModules
      (clearWorkspacePackageJsonNodeModulesCache s).2 = None
  ∧ cachedWorkspacePackageJsonNodeModules cleared.2 = None
  ∧ trace cleared.2 = trace first.2
  ∧ third.1 = Return (searched E3)
  ∧ trace third.2 = trace first.2 ++ [EvFindFiles include exclude]
  ∧ (cachedWorkspacePackageJsonNodeModules s = None →
       first.1 = Return (searched E1)
       ∧ trace first.2 = trace s ++ [EvFindFiles include exclude]).
Proof.
  intros include exclude searched first second cleared third.
  subst third cleared second first searched.
  unfold getWorkspacePackageJsonNodeModules, clearWorkspacePackageJsonNodeModulesCache,
    search_manifests, scan_node_modules.
  destruct (cachedWorkspacePackageJsonNodeModules s) as [promise|] eqn:Hmemo; simpl.
  - rewrite Hmemo. simpl. by repeat split.
  - by repeat split.
Qed.

(** ** The settings locator *)

(** C10.  In an untrusted workspace the settings locator returns
    [undefined] at once: the state is returned as it was, so the safety
    predicate has not been consulted and no existence check has been
    issued. *)
Theorem untrusted_workspace_returns_at_once `{PathModule} (E : Env)
    (settingsBinary : string) (s : State) :
  isTrusted E = false →
  searchSettingsBin E settingsBinary s = (Return None, s).
Proof. intros Huntrusted. unfold searchSettingsBin. by rewrite Huntrusted. Qed.

Section SettingsClaims.
Context `{PathModule} (E : Env).

(** Where a settings path is anchored: an absolute path stays, a relative
    one is joined to the first workspace folder and normalised. *)
Inductive Anchored (settingsBinary : string) : string → Prop :=
  | anchored_absolute :
      isAbsolute settingsBinary = true →
      Anchored settingsBinary settingsBinary
  | anchored_relative cwd :
      isAbsolute settingsBinary = false →
      workspaceFolders E ≫= head = Some cwd →
      cwd ≠ "" →
      Anchored settingsBinary (normalize (join [cwd; settingsBinary])).

(** The path that is checked first: off Windows a trailing [.exe] is cut
    from the anchored path. *)
Inductive Checked (anchored : string) : string → Prop :=
  | checked_stripped :
      platform E ≠ "win32" →
      Js.endsWith anchored ".exe" = true →
      Checked anchored (Js.slice_to_minus 4 anchored)
  | checked_as_is :
      platform E = "win32" ∨ Js.endsWith anchored ".exe" = false →
      Checked anchored anchored.

Lemma is_win32_true : platform E = "win32" → is_win32 E = true.
Proof. intros Hos. unfold is_win32. by rewrite Hos. Qed.

Lemma is_win32_false : platform E ≠ "win32" → is_win32 E = false.
Proof.
  intros Hos. unfold is_win32. by destruct (String.eqb_spec (platform E) "win32").
Qed.

Lemma settings_target_checked settingsBinary anchored target :
  Anchored settingsBinary anchored → Checked anchored target →
  settings_target E settingsBinary = Some target.
Proof.
  intros Hanchored Hchecked. unfold settings_target.
  assert ((if negb (isAbsolute settingsBinary)
           then if Js.truthy (workspaceFolders E ≫= head)
                then match workspaceFolders E ≫= head with
                     | Some cwd => Some (normalize (join [cwd; settingsBinary]))
                     | None => None
                     end
                else None
           else Some settingsBinary) = Some anchored) as ->.
  { destruct Hanchored as [-> | cwd -> -> Hcwd]; simpl; [done|].
    by destruct (String.eqb_spec cwd ""). }
  destruct Hchecked as [Hos Hexe | [Hos | Hexe]].
  - by rewrite is_win32_false, Hexe.
  - by rewrite is_win32_true.
  - rewrite Hexe. by rewrite andb_false_r.
Qed.

Lemma settings_target_no_root settingsBinary :
  isAbsolute settingsBinary = false →
  workspaceFolders E ≫= head = None ∨ workspaceFolders E ≫= head = Some "" →
  settings_target E settingsBinary = None.
Proof.
  intros Hrel Hroot. unfold settings_target. rewrite Hrel. simpl.
  by destruct Hroot as [-> | ->].
Qed.

(** C9 (amended).  In a trusted workspace: a path the safety predicate
    rejects yields [undefined] with nothing but the predicate consulted.
    For an accepted path: a relative path with no first workspace folder,
    or one whose path is empty, yields [undefined] without any existence
    check; otherwise the path checked first is the anchored path, cut by
    a trailing [.exe] off Windows, and it is returned when its check
    succeeds.  When that check fails the result off Windows is
    [undefined]; on Windows a path that does not already end in [.exe]
    is checked again with [.exe] appended and returned on success, while
    a path that already ends in [.exe] is only checked again as it is,
    and the result is [undefined]. *)
Theorem settings_locator_in_trusted_workspace (settingsBinary : string) (s : State) :
  isTrusted E = true →
  let run := searchSettingsBin E settingsBinary s in
  (validateSafeBinaryPath E settingsBinary = false →
     run = (Return None, logs [EvValidate settingsBinary] s))
  ∧ (validateSafeBinaryPath E settingsBinary = true →
     (isAbsolute settingsBinary = false →
      workspaceFolders E ≫= head = None ∨ workspaceFolders E ≫= head = Some "" →
      run = (Return None, logs [EvValidate settingsBinary] s))
     ∧ ∀ anchored target,
         Anchored settingsBinary anchored → Checked anchored target →
         (stat E target = true →
            run = (Return (Some target),
                   logs [EvValidate settingsBinary; EvStat target] s))
         ∧ (stat E target = false → platform E ≠ "win32" →
            run = (Return None,
                   logs [EvValidate settingsBinary; EvStat target] s))
         ∧ (stat E target = false → platform E = "win32" →
            Js.endsWith target ".exe" = false →
            run = (Return (if stat E (target +:+ ".exe")
                           then Some (target +:+ ".exe") else None),
                   logs [EvValidate settingsBinary; EvStat target;
                         EvStat (target +:+ ".exe")] s))
         ∧ (stat E target = false → platform E = "win32" →
            Js.endsWith target ".exe" = true →
            run = (Return None,
                   logs [EvValidate settingsBinary; EvStat target; EvStat target] s))).
Proof.
  intros Htrusted run. subst run. unfold searchSettingsBin. rewrite Htrusted.
  unfold validate. unfold_monad. simpl. rewrite log_logs.
  split; [by intros ->|]. intros ->. simpl. split.
  - intros Hrel Hroot. by rewrite settings_target_no_root.
  - intros anchored target Hanchored Hchecked.
    rewrite (settings_target_checked _ _ _ Hanchored Hchecked).
    rewrite path_exists_run, logs_logs. simpl.
    repeat split.
    + by intros ->.
    + intros -> Hos. by rewrite is_win32_false.
    + intros -> Hos Hexe. rewrite is_win32_true, Hexe by done. simpl.
      rewrite path_exists_run, logs_logs. simpl.
      by destruct (stat E (target +:+ ".exe")).
    + intros Hmissing Hos Hexe. rewrite Hmissing, is_win32_true, Hexe by done.
      simpl. rewrite path_exists_run, logs_logs, Hmissing. done.
Qed.

End SettingsClaims.

(** ** The claims on concrete hosts *)

Module Scenarios.
Import Fixture.
#[local] Existing Instance node_path.

Example probe_two_installs :
  searchNodeModulesDefaultBinPath two_installs "oxlint"
    ["/ws/a/node_modules"; "/ws/b/node_modules"] fresh
  = (Return (Some "/ws/a/node_modules/.bin/oxlint.exe"),
     logs [EvStat "/ws/a/node_modules/.bin/oxlint";
           EvStat "/ws/a/node_modules/.bin/oxlint.exe";
           EvStat "/ws/b/node_modules/.bin/oxlint";
           EvStat "/ws/b/node_modules/.bin/oxlint.exe"] fresh).
Proof. by vm_compute. Qed.

Example installed_package_wins :
  searchProjectNodeModulesBin installed "oxlint" fresh
  = (Return (Some "/ws/node_modules/oxlint/bin/oxlint"),
     logs [EvRequireResolve "oxlint" ["/ws"];
           EvReadFile "/ws/node_modules/oxlint/dist/package.json";
           EvReadFile "/ws/node_modules/oxlint/package.json"] fresh).
Proof. by vm_compute. Qed.

Definition unknown : string := "non-existent-binary-package-name-12345".

(** The unit tests "should return undefined when binary is not found". *)
Example unknown_binary_is_absent :
  (searchProjectNodeModulesBin bare_workspace unknown fresh).1 = Return None
  ∧ (searchGlobalNodeModulesBin bare_workspace unknown fresh).1 = Return None.
Proof. split; by vm_compute. Qed.

(** C4 (failing inputs).  The name of the unit tests, which no package
    answers to: module resolution fails for it and no shim of that name
    exists.  Where the file search of the workspace is rejected, the
    project locator does not return [undefined]: the rejection leaves it
    through the unguarded [await] of the index, and, the rejected promise
    being memoised, every later call raises again without a new search.
    Where the home directory cannot be determined, the global locator
    does not return [undefined] either: [os.homedir] throws while the
    list of global roots is built, after both package managers have been
    queried and before the first guarded tier starts. *)
Theorem host_failures_leave_the_locators :
  let rejected := Rejected (SearchError "**/package.json") in
  let after :=
    {| cachedWorkspacePackageJsonNodeModules := Some rejected;
       trace := [EvRequireResolve unknown ["/ws"];
                 EvStat ("/ws/node_modules/.bin/" +:+ unknown);
                 EvFindFiles "**/package.json" "**/node_modules/**"] |} in
  let managers :=
    [EvSpawnSync "npm" ["root"; "-g"]
       {| shell := true; timeout := None; encoding := "utf8" |};
     EvSpawnSync "pnpm" ["root"; "-g"]
       {| shell := true; timeout := None; encoding := "utf8" |}] in
  (∀ paths, require_resolve search_rejected unknown paths = None)
  ∧ (∀ path, stat search_rejected path = false)
  ∧ findFiles search_rejected "**/package.json" "**/node_modules/**" = None
  ∧ searchProjectNodeModulesBin search_rejected unknown fresh
    = (Throw (SearchError "**/package.json"), after)
  ∧ searchProjectNodeModulesBin bare_workspace unknown after
    = (Throw (SearchError "**/package.json"),
       logs [EvRequireResolve unknown ["/ws"];
             EvStat ("/ws/node_modules/.bin/" +:+ unknown)] after)
  ∧ (∀ paths, require_resolve homeless unknown paths = None)
  ∧ (∀ path, stat homeless path = false)
  ∧ homedir homeless = None
  ∧ searchGlobalNodeModulesBin homeless unknown fresh
    = (Throw (SystemError "uv_os_homedir"), logs managers fresh).
Proof. repeat split; by vm_compute. Qed.

(** The unit test "should fallback to workspace node_modules/.bin when
    package resolve fails". *)
Lemma fallback_to_workspace_bin :
  searchProjectNodeModulesBin workspace_fallback "fallback-bin-lookup-test" fresh
  = (Return (Some "/ws/node_modules/.bin/fallback-bin-lookup-test"),
     logs [EvRequireResolve "fallback-bin-lookup-test" ["/ws"];
           EvStat "/ws/node_modules/.bin/fallback-bin-lookup-test"] fresh).
Proof.
  refine (proj1 (proj2
    (project_tiers_in_strict_order workspace_fallback "fallback-bin-lookup-test" fresh))
    (ModuleNotFound "fallback-bin-lookup-test")
    "/ws/node_modules/.bin/fallback-bin-lookup-test" _ _).
  - by vm_compute.
  - by vm_compute.
Defined.

(** The unit test "should fallback to nested package.json directory":
    the index filled before the nested package was written stays stale
    until it is cleared. *)
Lemma stale_until_cleared :
  let first := getWorkspacePackageJsonNodeModules workspace_fallback fresh in
  let second := getWorkspacePackageJsonNodeModules monorepo first.2 in
  let cleared := clearWorkspacePackageJsonNodeModulesCache second.2 in
  let third := getWorkspacePackageJsonNodeModules monorepo cleared.2 in
  first.1 = Return (Fulfilled ["/ws/node_modules"])
  ∧ second = first
  ∧ third.1
    = Return (Fulfilled ["/ws/node_modules"; "/ws/packages/nested-app/node_modules"]).
Proof.
  intros first second cleared third.
  destruct (manifest_index_is_memoized workspace_fallback monorepo monorepo fresh)
    as (Hsame & _ & _ & _ & Hthird & _ & Hfirst).
  destruct (Hfirst eq_refl) as [Hscan _].
  split; [exact Hscan|]. split; [exact Hsame|exact Hthird].
Defined.

Example monorepo_after_clearing :
  (searchProjectNodeModulesBin monorepo "fallback-nested-bin-lookup-test" fresh).1
  = Return (Some "/ws/packages/nested-app/node_modules/.bin/fallback-nested-bin-lookup-test").
Proof. by vm_compute. Qed.

(** C9 (counterexample).  Three inputs the safety predicate accepts.
    In an untrusted workspace an existing absolute path is not returned.
    On Windows, for [/opt/oxc/oxlint.exe], the first check fails and the
    path with [.exe] appended exists, yet that path is never checked and
    the result is [undefined].  With a first workspace folder whose path
    is empty, a relative path is not resolved against it although the
    resolved path exists. *)
Lemma settings_locator_departs_from_claim :
  (validateSafeBinaryPath untrusted_install "/usr/local/bin/oxlint" = true
   ∧ isAbsolute "/usr/local/bin/oxlint" = true
   ∧ stat untrusted_install "/usr/local/bin/oxlint" = true
   ∧ searchSettingsBin untrusted_install "/usr/local/bin/oxlint" fresh
     = (Return None, fresh))
  ∧ (platform double_exe = "win32"
     ∧ validateSafeBinaryPath double_exe "/opt/oxc/oxlint.exe" = true
     ∧ isAbsolute "/opt/oxc/oxlint.exe" = true
     ∧ stat double_exe "/opt/oxc/oxlint.exe" = false
     ∧ stat double_exe ("/opt/oxc/oxlint.exe" +:+ ".exe") = true
     ∧ searchSettingsBin double_exe "/opt/oxc/oxlint.exe" fresh
       = (Return None,
          logs [EvValidate "/opt/oxc/oxlint.exe"; EvStat "/opt/oxc/oxlint.exe";
                EvStat "/opt/oxc/oxlint.exe"] fresh))
  ∧ (workspaceFolders rootless ≫= head = Some ""
     ∧ validateSafeBinaryPath rootless "bin/oxlint" = true
     ∧ isAbsolute "bin/oxlint" = false
     ∧ stat rootless (normalize (join [""; "bin/oxlint"])) = true
     ∧ searchSettingsBin rootless "bin/oxlint" fresh
       = (Return None, logs [EvValidate "bin/oxlint"] fresh)).
Proof. repeat split; by vm_compute. Qed.

(** A relative setting written the Windows way, on Linux: it is joined
    to the workspace folder, loses its [.exe], and is found. *)
Lemma relative_setting_is_found :
  searchSettingsBin shim_in_workspace "node_modules/.bin/oxlint.exe" fresh
  = (Return (Some "/ws/node_modules/.bin/oxlint"),
     logs [EvValidate "node_modules/.bin/oxlint.exe";
           EvStat "/ws/node_modules/.bin/oxlint"] fresh).
Proof.
  refine (proj1 (proj2 (proj2
    (settings_locator_in_trusted_workspace shim_in_workspace
       "node_modules/.bin/oxlint.exe" fresh _) _)
    "/ws/node_modules/.bin/oxlint.exe" "/ws/node_modules/.bin/oxlint" _ _) _).
  - reflexivity.
  - reflexivity.
  - exact (anchored_relative shim_in_workspace "node_modules/.bin/oxlint.exe" "/ws"
             eq_refl eq_refl ltac:(discriminate)).
  - exact (checked_stripped shim_in_workspace "/ws/node_modules/.bin/oxlint.exe"
             ltac:(discriminate) eq_refl).
  - reflexivity.
Defined.

(** The setting is ignored in an untrusted workspace. *)
Lemma untrusted_setting_is_ignored :
  searchSettingsBin untrusted_install "/usr/local/bin/oxlint" fresh
  = (Return None, fresh).
Proof.
  exact (untrusted_workspace_returns_at_once untrusted_install
           "/usr/local/bin/oxlint" fresh eq_refl).
Defined.

End Scenarios.

(** ** Facts about strings *)

Module StringFacts.

Lemma append_cons (c : ascii) (a b : string) :
  String c a +:+ b = String c (a +:+ b).
Proof. done. Qed.

Lemma append_nil_l (a : string) : "" +:+ a = a.
Proof. done. Qed.

Lemma append_nil_r (a : string) : a +:+ "" = a.
Proof. induction a as [|c a IH]; [done|]. by rewrite append_cons, IH. Qed.

Lemma append_assoc (a b c : string) : (a +:+ b) +:+ c = a +:+ (b +:+ c).
Proof. induction a as [|x a IH]; [done|]. by rewrite !append_cons, IH. Qed.

Lemma rev_app_rev_app (a b c : string) :
  String.rev_app (String.rev_app a b) c = String.rev_app b (a +:+ c).
Proof.
  revert b c. induction a as [|x a IH]; intros b c; simpl; [done|].
  by rewrite IH.
Qed.

Lemma rev_involutive (a : string) : String.rev (String.rev a) = a.
Proof.
  unfold String.rev. rewrite rev_app_rev_app. simpl. apply append_nil_r.
Qed.

Lemma split_go_at_sep (sep : ascii) (a b cur : string) :
  Js.split_go sep cur (a +:+ String sep b)
  = Js.split_go sep cur a ++ Js.split_go sep "" b.
Proof.
  revert cur. induction a as [|c a IH]; intros cur.
  - rewrite append_nil_l. simpl. by rewrite Ascii.eqb_refl.
  - rewrite append_cons. simpl. destruct (Ascii.eqb c sep); by rewrite IH.
Qed.

Lemma split_go_no_sep (sep : ascii) (l cur : string) :
  sep ∉ String.list_ascii_of_string l →
  Js.split_go sep cur l = [String.rev (String.rev_app l cur)].
Proof.
  revert cur. induction l as [|c l IH]; intros cur Hsep; simpl; [done|].
  simpl in Hsep. apply not_elem_of_cons in Hsep as [Hc Hl].
  destruct (Ascii.eqb_spec c sep); [congruence|]. by apply IH.
Qed.

Lemma split_no_sep (sep : ascii) (l : string) :
  sep ∉ String.list_ascii_of_string l → Js.split sep l = [l].
Proof.
  intros Hsep. unfold Js.split. rewrite split_go_no_sep by done.
  f_equal. apply rev_involutive.
Qed.

End StringFacts.

(** ** The launch descriptor builder *)

Module LspHelperFacts.
Import LspHelper StringFacts.

(** [k] line feeds. *)
Fixpoint newlines (k : nat) : string :=
  match k with
  | 0 => ""
  | S k' => String "010"%char (newlines k')
  end.

Lemma split_newlines (k : nat) :
  Js.split "010" (newlines k) = replicate (S k) "".
Proof.
  unfold Js.split. induction k as [|k IH]; simpl; [done|]. by rewrite IH.
Qed.

Lemma split_line_newlines (line : string) (k : nat) :
  "010"%char ∉ String.list_ascii_of_string line →
  Js.split "010" (line +:+ newlines k) = line :: replicate k "".
Proof.
  intros Hline. destruct k as [|k]; simpl.
  - rewrite append_nil_r. by apply split_no_sep.
  - unfold Js.split. rewrite split_go_at_sep.
    fold (Js.split "010" line). fold (Js.split "010" (newlines k)).
    by rewrite split_no_sep, split_newlines.
Qed.

Lemma filter_nonempty_replicate (k : nat) :
  filter (λ line : string, line ≠ "") (replicate k "") = [].
Proof.
  induction k as [|k IH]; [done|]. simpl.
  rewrite filter_cons_False; [done | naive_solver].
Qed.

(** The last line that is not empty, when the output ends with it and a
    run of line feeds. *)
Lemma lastNonEmptyLine_spec (before line : string) (k : nat) :
  before = "" ∨ (∃ b, before = b +:+ LF) →
  line ≠ "" →
  "010"%char ∉ String.list_ascii_of_string line →
  lastNonEmptyLine (before +:+ line +:+ newlines k) = Some line.
Proof.
  intros Hbefore Hne Hline. unfold lastNonEmptyLine.
  assert (∃ earlier, Js.split "010" (before +:+ line +:+ newlines k)
                     = earlier ++ line :: replicate k "") as [earlier ->].
  { destruct Hbefore as [-> | [b ->]].
    - exists []. rewrite append_nil_l. by apply split_line_newlines.
    - exists (Js.split "010" b). unfold LF. rewrite append_assoc, append_cons, append_nil_l.
      unfold Js.split. rewrite split_go_at_sep.
      fold (Js.split "010" (line +:+ newlines k)).
      by rewrite split_line_newlines. }
  rewrite filter_app, filter_cons_True, filter_nonempty_replicate by done.
  apply last_snoc.
Qed.

Section Facts.
Context `{PathModule} (E : Env).
Variable probeArgs : list string.
Variable locateScript : string.

(** The subprocess is unavailable: spawning throws, reports an error, or
    ends with a status other than 0. *)
Definition spawn_fails (cmd : string) (arguments : list string) : Prop :=
  match spawnSync E cmd arguments bounded with
  | Some result => error result = true ∨ status result ≠ Some 0%Z
  | None => True
  end.

Lemma run_fails cmd arguments s :
  spawn_fails cmd arguments →
  run E cmd arguments s = (Return None, logs [EvSpawnSync cmd arguments bounded] s).
Proof.
  unfold spawn_fails, run, spawn. unfold_monad.
  destruct (spawnSync E cmd arguments bounded) as [result|]; [|done].
  intros [-> | Hstatus]; [done|].
  rewrite bool_decide_eq_false_2 by done. by rewrite orb_true_r.
Qed.

Lemma run_succeeds cmd arguments result s :
  spawnSync E cmd arguments bounded = Some result →
  error result = false → status result = Some 0%Z →
  run E cmd arguments s
  = (Return (Some (stdout result)), logs [EvSpawnSync cmd arguments bounded] s).
Proof.
  intros Hspawn Herror Hstatus. unfold run, spawn. unfold_monad.
  by rewrite Hspawn, Herror, Hstatus.
Qed.

Lemma run_returns cmd arguments s :
  ∃ output, run E cmd arguments s
            = (Return output, logs [EvSpawnSync cmd arguments bounded] s).
Proof.
  unfold run, spawn. unfold_monad.
  destruct (spawnSync E cmd arguments bounded) as [result|]; [|eauto].
  destruct (error result || _); eauto.
Qed.

Lemma resolveRuntimePath_returns explicitPath s :
  ∃ runtime s',
    resolveRuntimePath E probeArgs locateScript explicitPath s = (Return runtime, s').
Proof.
  unfold resolveRuntimePath. destruct explicitPath as [path|]; [unfold ret; eauto|].
  unfold mbind, M_bind, bind.
  destruct (run_returns canonicalName probeArgs s) as [[seen|] ->];
    [unfold ret; eauto|].
  destruct (process_env E !! "SHELL") as [loginShell|].
  - destruct (run_returns loginShell ["-ilc"; locateScript]
                (logs [EvSpawnSync canonicalName probeArgs bounded] s))
      as [output ->].
    unfold mret, M_ret, ret. case_match; eauto.
  - unfold ret. eauto.
Qed.

Lemma script_target targetPath :
  Js.endsWith targetPath ".js" = true ∨ Js.endsWith targetPath ".cjs" = true
  ∨ Js.endsWith targetPath ".mjs" = true ↔ isScript targetPath = true.
Proof.
  unfold isScript. rewrite !orb_true_iff. tauto.
Qed.

Lemma runExecutable_script targetPath toolName explicitPath runtime s s' :
  isScript targetPath = true →
  resolveRuntimePath E probeArgs locateScript explicitPath s = (Return runtime, s') →
  runExecutable E probeArgs locateScript targetPath toolName explicitPath s
  = (Return {| command := runtimePath runtime;
               args := [targetPath; "--lsp"];
               options := {| shell := false; env := childEnv E (Some runtime) |} |},
     s').
Proof.
  intros Hscript Hresolved. unfold runExecutable. rewrite Hscript.
  unfold mbind, M_bind, bind. by rewrite Hresolved.
Qed.

Lemma resolveRuntimePath_login_shell s loginShell result line :
  spawn_fails canonicalName probeArgs →
  process_env E !! "SHELL" = Some loginShell →
  spawnSync E loginShell ["-ilc"; locateScript] bounded = Some result →
  error result = false → status result = Some 0%Z →
  lastNonEmptyLine (stdout result) = Some line →
  resolveRuntimePath E probeArgs locateScript None s
  = (Return {| runtimePath := line; hostFallback := false |},
     logs [EvSpawnSync canonicalName probeArgs bounded;
           EvSpawnSync loginShell ["-ilc"; locateScript] bounded] s).
Proof.
  intros Hprobe Hshell Hspawn Herror Hstatus Hlast.
  unfold resolveRuntimePath. unfold mbind, M_bind, bind.
  rewrite run_fails, Hshell by done.
  rewrite (run_succeeds _ _ result) by done.
  unfold mret, M_ret, ret. simpl. rewrite Hlast. by rewrite logs_logs.
Qed.

Lemma resolveRuntimePath_host s :
  spawn_fails canonicalName probeArgs →
  process_env E !! "SHELL" = None
  ∨ (∃ loginShell, process_env E !! "SHELL" = Some loginShell
                   ∧ spawn_fails loginShell ["-ilc"; locateScript]) →
  ∃ s', resolveRuntimePath E probeArgs locateScript None s
        = (Return {| runtimePath := execPath E; hostFallback := true |}, s').
Proof.
  intros Hprobe Hshell.
  unfold resolveRuntimePath. unfold mbind, M_bind, bind.
  rewrite run_fails by done.
  destruct Hshell as [-> | (loginShell & -> & Hfails)]; [unfold ret; eauto|].
  rewrite run_fails by done. unfold mret, M_ret, ret. simpl. eauto.
Qed.

(** C7.  Let no runtime path be supplied and let the PATH probe of the
    runtime fail.  If the login shell named by [SHELL] succeeds and its
    output ends with a non-empty line followed only by line feeds, that
    line is the resolved runtime and the command of a script launch.  If
    the login-shell tier fails as well ([SHELL] unset, or the subprocess
    unavailable), the resolved runtime is the host's own executable, and
    a script launch has it as command and carries
    [ELECTRON_RUN_AS_NODE=1] in its environment. *)
Theorem runtime_resolution_falls_back (targetPath toolName : string) (s : State) :
  spawn_fails canonicalName probeArgs →
  let resolved := resolveRuntimePath E probeArgs locateScript None s in
  let launch := runExecutable E probeArgs locateScript targetPath toolName None s in
  let script :=
    Js.endsWith targetPath ".js" = true ∨ Js.endsWith targetPath ".cjs" = true
    ∨ Js.endsWith targetPath ".mjs" = true in
  (∀ loginShell result before line k,
     process_env E !! "SHELL" = Some loginShell →
     spawnSync E loginShell ["-ilc"; locateScript] bounded = Some result →
     error result = false → status result = Some 0%Z →
     stdout result = before +:+ line +:+ newlines k →
     before = "" ∨ (∃ b, before = b +:+ LF) →
     line ≠ "" → "010"%char ∉ String.list_ascii_of_string line →
     resolved.1 = Return {| runtimePath := line; hostFallback := false |}
     ∧ (script → ∃ descriptor,
          launch.1 = Return descriptor ∧ command descriptor = line))
  ∧ (process_env E !! "SHELL" = None
     ∨ (∃ loginShell, process_env E !! "SHELL" = Some loginShell
                      ∧ spawn_fails loginShell ["-ilc"; locateScript]) →
     resolved.1 = Return {| runtimePath := execPath E; hostFallback := true |}
     ∧ (script → ∃ descriptor,
          launch.1 = Return descriptor
          ∧ command descriptor = execPath E
          ∧ env (options descriptor) !! "ELECTRON_RUN_AS_NODE" = Some "1")).
Proof.
  intros Hprobe resolved launch script. subst resolved launch. split.
  - intros loginShell result before line k Hshell Hspawn Herror Hstatus Hout
      Hbefore Hne Hline.
    assert (lastNonEmptyLine (stdout result) = Some line) as Hlast
      by (rewrite Hout; by apply lastNonEmptyLine_spec).
    rewrite (resolveRuntimePath_login_shell s loginShell result line) by done.
    split; [done|]. intros Hscript%script_target. eexists.
    erewrite runExecutable_script;
      [|done|by apply (resolveRuntimePath_login_shell s loginShell result line)].
    simpl. by split.
  - intros Hshell.
    destruct (resolveRuntimePath_host s Hprobe Hshell) as [s' Hhost].
    rewrite Hhost. split; [done|]. intros Hscript%script_target. eexists.
    erewrite runExecutable_script; [|done|exact Hhost]. simpl.
    split; [done|]. split; [done|]. apply lookup_insert_eq.
Qed.

(** C8.  A target ending in [.js], [.cjs] or [.mjs] is launched as
    [<runtime> <target> --lsp], the runtime being what the resolver
    returns for the caller's hint.  Any other target is launched as
    itself with the single argument [--lsp]: off Windows bare and
    without a shell, on Windows wrapped in double quotes and through the
    shell; the state is untouched, no subprocess is started. *)
Theorem launch_descriptor_by_target_kind
    (targetPath toolName : string) (explicitPath : option string) (s : State) :
  let launch :=
    runExecutable E probeArgs locateScript targetPath toolName explicitPath s in
  let script :=
    Js.endsWith targetPath ".js" = true ∨ Js.endsWith targetPath ".cjs" = true
    ∨ Js.endsWith targetPath ".mjs" = true in
  (script → ∃ runtime s' descriptor,
     resolveRuntimePath E probeArgs locateScript explicitPath s = (Return runtime, s')
     ∧ launch = (Return descriptor, s')
     ∧ command descriptor = runtimePath runtime
     ∧ args descriptor = [targetPath; "--lsp"])
  ∧ (¬ script → platform E ≠ "win32" → ∃ descriptor,
       launch = (Return descriptor, s)
       ∧ command descriptor = targetPath
       ∧ args descriptor = ["--lsp"]
       ∧ shell (options descriptor) = false)
  ∧ (¬ script → platform E = "win32" → ∃ descriptor,
       launch = (Return descriptor, s)
       ∧ command descriptor = dq +:+ targetPath +:+ dq
       ∧ args descriptor = ["--lsp"]
       ∧ shell (options descriptor) = true).
Proof.
  intros launch script. subst launch. repeat split.
  - intros Hscript%script_target.
    destruct (resolveRuntimePath_returns explicitPath s) as (runtime & s' & Hresolved).
    exists runtime, s'. eexists. split; [done|].
    by rewrite (runExecutable_script _ _ _ runtime s s').
  - intros Hnative Hos. unfold runExecutable.
    destruct (isScript targetPath) eqn:Hscript;
      [by destruct Hnative; apply script_target|].
    rewrite is_win32_false by done. unfold ret. by eexists.
  - intros Hnative Hos. unfold runExecutable.
    destruct (isScript targetPath) eqn:Hscript;
      [by destruct Hnative; apply script_target|].
    rewrite is_win32_true by done. unfold ret. by eexists.
Qed.

End Facts.
End LspHelperFacts.

Module LaunchScenarios.
Import Fixture LspHelper LspHelperFacts.
#[local] Existing Instance node_path.

Definition probe : list string := ["--version"].
Definition locate : string := "command -v node".

(** The expectations of the unit tests of [runExecutable] that do not
    stub the subprocess. *)
Example script_runs_under_node :
  ∃ descriptor,
    (runExecutable node_on_path probe locate "/path/to/server.js" "oxlint" None fresh).1
    = Return descriptor
    ∧ command descriptor = "node"
    ∧ args descriptor = ["/path/to/server.js"; "--lsp"].
Proof. eexists. by vm_compute. Qed.

Example given_runtime_is_used :
  ∃ descriptor,
    (runExecutable node_on_path probe locate "/path/to/server.js" "oxlint"
       (Some "/custom/node/bin/node") fresh).1 = Return descriptor
    ∧ command descriptor = "/custom/node/bin/node"
    ∧ args descriptor = ["/path/to/server.js"; "--lsp"].
Proof. eexists. by vm_compute. Qed.

Example runtime_directory_leads_PATH :
  ∃ descriptor,
    (runExecutable node_on_path probe locate "/path/to/server" "oxlint"
       (Some "/custom/node/bin/node") fresh).1 = Return descriptor
    ∧ env (options descriptor) !! "PATH" = Some "/custom/node/bin:/usr/bin:/bin".
Proof. eexists. by vm_compute. Qed.

Example login_shell_directory_leads_PATH :
  ∃ descriptor,
    (runExecutable node_in_login_shell probe locate "/path/to/server.js" "oxlint"
       None fresh).1 = Return descriptor
    ∧ env (options descriptor) !! "PATH" = Some "/opt/homebrew/bin:/usr/bin:/bin".
Proof. eexists. by vm_compute. Qed.

(** The two stubbed unit tests: the login shell prints a line of noise
    before the path; then every subprocess fails. *)
Lemma runtime_tiers_of_the_unit_tests :
  ((resolveRuntimePath node_in_login_shell probe locate None fresh).1
   = Return {| runtimePath := "/opt/homebrew/bin/node"; hostFallback := false |}
   ∧ ∃ descriptor,
       (runExecutable node_in_login_shell probe locate "/path/to/server.js" "oxlint"
          None fresh).1 = Return descriptor
       ∧ command descriptor = "/opt/homebrew/bin/node")
  ∧ ((resolveRuntimePath node_nowhere probe locate None fresh).1
     = Return {| runtimePath := execPath node_nowhere; hostFallback := true |}
     ∧ ∃ descriptor,
         (runExecutable node_nowhere probe locate "/path/to/server.js" "oxlint"
            None fresh).1 = Return descriptor
         ∧ command descriptor = execPath node_nowhere
         ∧ env (options descriptor) !! "ELECTRON_RUN_AS_NODE" = Some "1").
Proof.
  assert (spawn_fails node_in_login_shell canonicalName probe) as Hprobe1.
  { right. discriminate. }
  assert (spawn_fails node_nowhere canonicalName probe) as Hprobe2.
  { right. discriminate. }
  assert (spawn_fails node_nowhere "/bin/zsh" ["-ilc"; locate]) as Hshell2.
  { right. discriminate. }
  assert ("010"%char ∉ String.list_ascii_of_string "/opt/homebrew/bin/node") as Hline.
  { apply (bool_decide_unpack _). by vm_compute. }
  split.
  - destruct (proj1 (runtime_resolution_falls_back node_in_login_shell probe locate
                "/path/to/server.js" "oxlint" fresh Hprobe1)
              "/bin/zsh"
              (exited 0 ("noise" +:+ LF +:+ "/opt/homebrew/bin/node" +:+ LF))
              ("noise" +:+ LF) "/opt/homebrew/bin/node" 1
              eq_refl eq_refl eq_refl eq_refl eq_refl
              (or_intror (ex_intro _ "noise" eq_refl))
              ltac:(discriminate) Hline)
      as [Hresolved Hlaunch].
    split; [exact Hresolved | exact (Hlaunch (or_introl eq_refl))].
  - destruct (proj2 (runtime_resolution_falls_back node_nowhere probe locate
                "/path/to/server.js" "oxlint" fresh Hprobe2)
              (or_intror (ex_intro _ "/bin/zsh" (conj eq_refl Hshell2))))
      as [Hresolved Hlaunch].
    split; [exact Hresolved | exact (Hlaunch (or_introl eq_refl))].
Defined.

(** The unit tests of native targets, on Linux and with the platform set
    to Windows. *)
Lemma native_targets_of_the_unit_tests :
  (∃ descriptor,
     runExecutable node_on_path probe locate "/path/to/oxc-language-server" "oxlint"
       None fresh = (Return descriptor, fresh)
     ∧ command descriptor = "/path/to/oxc-language-server"
     ∧ args descriptor = ["--lsp"]
     ∧ shell (options descriptor) = false)
  ∧ (∃ descriptor,
       runExecutable as_windows probe locate "C:\Path With Spaces\oxc-language-server"
         "oxlint" None fresh = (Return descriptor, fresh)
       ∧ command descriptor
         = dq +:+ "C:\Path With Spaces\oxc-language-server" +:+ dq
       ∧ args descriptor = ["--lsp"]
       ∧ shell (options descriptor) = true).
Proof.
  split.
  - refine (proj1 (proj2 (launch_descriptor_by_target_kind node_on_path probe locate
              "/path/to/oxc-language-server" "oxlint" None fresh)) _ _).
    + intros [Hjs | [Hcjs | Hmjs]]; discriminate.
    + discriminate.
  - refine (proj2 (proj2 (launch_descriptor_by_target_kind as_windows probe locate
              "C:\Path With Spaces\oxc-language-server" "oxlint" None fresh)) _ _).
    + intros [Hjs | [Hcjs | Hmjs]]; discriminate.
    + reflexivity.
Defined.

End LaunchScenarios.

(** * Further properties of [client/findBinary.ts] *)

(** ** [String.prototype.trim] *)

Module TrimFacts.
Import StringFacts.

Lemma rev_app_append (a c : string) :
  String.rev_app a c = String.rev_app a "" +:+ c.
Proof.
  revert c. induction a as [|x a IH]; intros c; simpl; [done|].
  rewrite (IH (String x c)), (IH (String x "")).
  by rewrite append_assoc, append_cons, append_nil_l.
Qed.

Lemma rev_append (a b : string) :
  String.rev (a +:+ b) = String.rev b +:+ String.rev a.
Proof.
  unfold String.rev. induction a as [|x a IH].
  - by rewrite append_nil_l, append_nil_r.
  - rewrite append_cons. simpl.
    rewrite (rev_app_append (a +:+ b)), IH, (rev_app_append a (String x "")).
    by rewrite append_assoc.
Qed.

Section CodePoints.
Variables (w1 : ascii → bool) (w2 : ascii → ascii → bool)
  (w3 : ascii → ascii → ascii → bool).

(** One code point that the tests accept. *)
Definition code_point (u : string) : bool :=
  match u with
  | String a EmptyString => w1 a
  | String a (String b EmptyString) => w2 a b
  | String a (String b (String c EmptyString)) => w3 a b c
  | _ => false
  end.

(** A sequence of such code points. *)
Inductive sequence : string → Prop :=
  | sequence_nil : sequence ""
  | sequence_cons u s : code_point u = true → sequence s → sequence (u +:+ s).

Lemma sequence_append a b : sequence a → sequence b → sequence (a +:+ b).
Proof.
  induction 1 as [|u s Hu _ IH]; intros Hb; [done|].
  rewrite append_assoc. by constructor; [|apply IH].
Qed.

Lemma sequence_one u : code_point u = true → sequence u.
Proof. intros Hu. rewrite <- (append_nil_r u). by repeat constructor. Qed.

Lemma drop_white_split_at n : ∀ s, String.length s ≤ n →
  ∃ lead, s = lead +:+ Js.drop_white w1 w2 w3 s ∧ sequence lead.
Proof.
  induction n as [|n IH]; intros s Hlen.
  { destruct s; simpl in Hlen; [|lia]. exists "". split; [done|constructor]. }
  destruct s as [|a rest]; [exists ""; split; [done|constructor]|].
  simpl in Hlen. simpl.
  destruct (w1 a) eqn:H1.
  { destruct (IH rest) as (lead & Hs & Hrun); [lia|].
    exists (String a "" +:+ lead). split.
    - rewrite append_assoc. simpl. by rewrite <- Hs.
    - by constructor. }
  destruct rest as [|b rest2]; [exists ""; split; [done|constructor]|].
  simpl in Hlen.
  destruct (w2 a b) eqn:H2.
  { destruct (IH rest2) as (lead & Hs & Hrun); [lia|].
    exists (String a (String b "") +:+ lead). split.
    - rewrite append_assoc. simpl. by rewrite <- Hs.
    - by constructor. }
  destruct rest2 as [|c rest3]; [exists ""; split; [done|constructor]|].
  simpl in Hlen.
  destruct (w3 a b c) eqn:H3; [|exists ""; split; [done|constructor]].
  destruct (IH rest3) as (lead & Hs & Hrun); [lia|].
  exists (String a (String b (String c "")) +:+ lead). split.
  - rewrite append_assoc. simpl. by rewrite <- Hs.
  - by constructor.
Qed.

Lemma drop_white_split s :
  ∃ lead, s = lead +:+ Js.drop_white w1 w2 w3 s ∧ sequence lead.
Proof. by apply (drop_white_split_at (String.length s)). Qed.

Lemma drop_white_head_at n : ∀ s u rest, String.length s ≤ n →
  code_point u = true → Js.drop_white w1 w2 w3 s ≠ u +:+ rest.
Proof.
  induction n as [|n IH]; intros s u rest Hlen Hu.
  { destruct s; simpl in Hlen; [|lia]. simpl. by destruct u. }
  destruct s as [|a rest1]; [by destruct u|].
  simpl in Hlen. simpl.
  destruct (w1 a) eqn:H1; [apply IH; [lia|done]|].
  destruct rest1 as [|b rest2].
  { destruct u as [|x [|y [|z [|]]]]; simpl in Hu; try done;
      intros Heq; rewrite ?append_cons, ?append_nil_l in Heq; congruence. }
  simpl in Hlen.
  destruct (w2 a b) eqn:H2; [apply IH; [lia|done]|].
  destruct rest2 as [|c rest3].
  { destruct u as [|x [|y [|z [|]]]]; simpl in Hu; try done;
      intros Heq; rewrite ?append_cons, ?append_nil_l in Heq; congruence. }
  simpl in Hlen.
  destruct (w3 a b c) eqn:H3; [apply IH; [lia|done]|].
  destruct u as [|x [|y [|z [|]]]]; simpl in Hu; try done;
      intros Heq; rewrite ?append_cons, ?append_nil_l in Heq; congruence.
Qed.

Lemma drop_white_head s u rest :
  code_point u = true → Js.drop_white w1 w2 w3 s ≠ u +:+ rest.
Proof. by apply (drop_white_head_at (String.length s)). Qed.

(** No accepted code point starts like another one. *)
Definition exclusive : Prop :=
  ∀ a b c, (w1 a = true → w2 a b = false ∧ w3 a b c = false)
           ∧ (w2 a b = true → w3 a b c = false).

Lemma drop_white_sequence s : exclusive → sequence s → Js.drop_white w1 w2 w3 s = "".
Proof.
  intros Hex. induction 1 as [|u s Hu _ IH]; [done|].
  destruct u as [|a [|b [|c [|]]]]; simpl in Hu; try done; simpl.
  - by rewrite Hu.
  - destruct (w1 a) eqn:H1.
    + destruct (proj1 (Hex a b b) H1). congruence.
    + by rewrite Hu.
  - destruct (w1 a) eqn:H1.
    + destruct (proj1 (Hex a b c) H1). congruence.
    + destruct (w2 a b) eqn:H2.
      * pose proof (proj2 (Hex a b c) H2). congruence.
      * by rewrite Hu.
Qed.

End CodePoints.

(** The UTF-8 encoding of one code point that [trim] removes, and a
    sequence of such encodings. *)
Definition white_code_point : string → bool :=
  code_point Js.is_white Js.is_white2 Js.is_white3.

Definition White : string → Prop := sequence Js.is_white Js.is_white2 Js.is_white3.

(** The same read from the end. *)
Definition is_white2' (b a : ascii) : bool := Js.is_white2 a b.
Definition is_white3' (c b a : ascii) : bool := Js.is_white3 a b c.

Lemma code_point_rev u :
  code_point Js.is_white is_white2' is_white3' (String.rev u) = white_code_point u.
Proof.
  destruct u as [|a [|b [|c [|d u]]]]; try done.
  change (String a (String b (String c (String d u))))
    with (String a (String b (String c (String d ""))) +:+ u).
  rewrite rev_append. simpl.
  destruct (String.rev u) as [|x [|y [|z [|]]]] ; done.
Qed.

Lemma sequence_rev s :
  sequence Js.is_white is_white2' is_white3' s → White (String.rev s).
Proof.
  induction 1 as [|u s Hu _ IH]; [constructor|].
  rewrite rev_append. apply sequence_append; [done|]. apply sequence_one.
  unfold white_code_point in *. rewrite <- code_point_rev, rev_involutive. done.
Qed.

Lemma trimEnd_split (t : string) :
  ∃ trail, t = Js.trimEnd t +:+ trail ∧ White trail.
Proof.
  destruct (drop_white_split Js.is_white is_white2' is_white3' (String.rev t))
    as (w & Hrev & Hw).
  exists (String.rev w). split; [|by apply sequence_rev].
  unfold Js.trimEnd. fold is_white2' is_white3'.
  rewrite <- rev_append, <- Hrev. by rewrite rev_involutive.
Qed.

(** [trim] cuts a sequence of white space from each end and nothing else. *)
Lemma trim_split (s : string) :
  ∃ lead trail, s = lead +:+ Js.trim s +:+ trail ∧ White lead ∧ White trail.
Proof.
  destruct (drop_white_split Js.is_white Js.is_white2 Js.is_white3 s)
    as (lead & Hs & Hlead).
  destruct (trimEnd_split (Js.trimStart s)) as (trail & Ht & Htrail).
  exists lead, trail. repeat split; [|done..].
  unfold Js.trim. by rewrite <- Ht.
Qed.

(** What is left neither starts nor ends with white space. *)
Lemma trim_first (s u rest : string) :
  white_code_point u = true → Js.trim s ≠ u +:+ rest.
Proof.
  intros Hu Htrim.
  destruct (trimEnd_split (Js.trimStart s)) as (trail & Ht & _).
  fold (Js.trim s) in Ht. rewrite Htrim, append_assoc in Ht.
  by apply (drop_white_head Js.is_white Js.is_white2 Js.is_white3 s u) in Ht.
Qed.

Lemma trim_last (s body u : string) :
  white_code_point u = true → Js.trim s ≠ body +:+ u.
Proof.
  intros Hu Htrim. unfold Js.trim, Js.trimEnd in Htrim.
  fold is_white2' is_white3' in Htrim.
  apply (f_equal String.rev) in Htrim.
  rewrite rev_involutive, rev_append in Htrim.
  apply (drop_white_head Js.is_white is_white2' is_white3') in Htrim; [done|].
  by rewrite code_point_rev.
Qed.

Lemma is_white_ascii a : Js.is_white a = true → nat_of_ascii a < 128.
Proof.
  destruct a as [[] [] [] [] [] [] [] []]; try discriminate; intros _; vm_compute; lia.
Qed.

Lemma white_exclusive : exclusive Js.is_white Js.is_white2 Js.is_white3.
Proof.
  intros a b c. unfold Js.is_white2, Js.is_white3. split.
  - intros Ha%is_white_ascii.
    repeat match goal with
           | |- context [?x =? ?y] => destruct (Nat.eqb_spec x y); try lia
           end; done.
  - intros [Ha _]%andb_true_iff. apply Nat.eqb_eq in Ha. rewrite Ha. done.
Qed.

(** White space only leaves nothing. *)
Lemma trim_white (s : string) : White s → Js.trim s = "".
Proof.
  intros Hs. unfold Js.trim, Js.trimStart.
  by rewrite (drop_white_sequence _ _ _ s white_exclusive Hs).
Qed.

End TrimFacts.

Module TrimScenarios.

Definition byte (n : nat) : string := String (ascii_of_nat n) "".

(** U+00A0, U+2028 and U+FEFF as UTF-8. *)
Definition NBSP : string := byte 194 +:+ byte 160.
Definition LS : string := byte 226 +:+ byte 128 +:+ byte 168.
Definition BOM : string := byte 239 +:+ byte 187 +:+ byte 191.

Example unicode_white_space_is_cut :
  Js.trim (BOM +:+ " /usr/lib/node_modules" +:+ NBSP +:+ LS +:+ LspHelper.LF)
  = "/usr/lib/node_modules"
  ∧ Js.trim (NBSP +:+ LS +:+ BOM) = ""
  ∧ Js.trim ("C:" +:+ NBSP +:+ "x") = "C:" +:+ NBSP +:+ "x".
Proof. repeat split; by vm_compute. Qed.

End TrimScenarios.

(** ** The global package roots *)

Section GlobalRoots.
Context `{PathModule} (E : Env).
Import TrimFacts.

Definition shell_utf8 : SpawnSyncOptions :=
  {| shell := true; timeout := None; encoding := "utf8" |}.

(** X1.  [safeSpawnSync] never throws and starts exactly one subprocess,
    through the shell.  Its result is present only when the child ran
    without error and exited with status 0, and is then the child's
    output with the white space cut from both ends: it is not empty, it
    neither starts nor ends with a code point that [trim] removes, and
    what was cut before and after it are such code points only.  A thrown
    or reported error, any other status (a missing one included) or
    output of white space only gives [undefined]. *)
Theorem safeSpawnSync_trimmed_or_absent (command : string) (args : list string)
    (s : State) :
  ∃ output,
    safeSpawnSync E command args s
    = (Return output, logs [EvSpawnSync command args shell_utf8] s)
    ∧ match output with
      | Some text =>
          text ≠ ""
          ∧ (∀ u rest, white_code_point u = true → text ≠ u +:+ rest)
          ∧ (∀ body u, white_code_point u = true → text ≠ body +:+ u)
          ∧ ∃ result lead trail,
              spawnSync E command args shell_utf8 = Some result
              ∧ error result = false ∧ status result = Some 0%Z
              ∧ stdout result = lead +:+ text +:+ trail
              ∧ White lead ∧ White trail
              ∧ ¬ White (stdout result)
      | None =>
          spawnSync E command args shell_utf8 = None
          ∨ ∃ result,
              spawnSync E command args shell_utf8 = Some result
              ∧ (error result = true ∨ status result ≠ Some 0%Z
                 ∨ White (stdout result))
      end.
Proof.
  unfold safeSpawnSync, spawn. unfold_monad. fold shell_utf8.
  destruct (spawnSync E command args shell_utf8) as [result|] eqn:Hspawn;
    [|exists None; auto].
  destruct (error result) eqn:Herror; simpl.
  { exists None. split; [done|]. right. exists result. auto. }
  destruct (decide (status result = Some 0%Z)) as [Hstatus|Hstatus].
  - rewrite bool_decide_eq_true_2 by done. simpl.
    destruct (trim_split (stdout result)) as (lead & trail & Hcut & Hlead & Htrail).
    destruct (String.eqb_spec (Js.trim (stdout result)) "") as [Hblank|Htext].
    + exists None. split; [done|]. right. exists result.
      split; [done|]. right. right.
      rewrite Hcut, Hblank, StringFacts.append_nil_l. by apply sequence_append.
    + exists (Some (Js.trim (stdout result))). split; [done|].
      split; [done|]. split; [intros u rest; apply trim_first|].
      split; [intros body u; apply trim_last|].
      exists result, lead, trail. repeat split; try done.
      intros Hwhite. by apply Htext, trim_white.
  - rewrite bool_decide_eq_false_2 by done. simpl.
    exists None. split; [done|]. right. exists result. auto.
Qed.

Lemma safeSpawnSync_stateless command args s s' :
  (safeSpawnSync E command args s).1 = (safeSpawnSync E command args s').1.
Proof.
  unfold safeSpawnSync, spawn. unfold_monad.
  destruct (spawnSync E command args _) as [result|]; [|done].
  by destruct (error result || _).
Qed.

Lemma safeSpawnSync_nonempty command args s :
  (safeSpawnSync E command args s).1 ≠ Return (Some "").
Proof.
  unfold safeSpawnSync, spawn. unfold_monad.
  destruct (spawnSync E command args _) as [result|]; [|done].
  destruct (error result || _); [done|]. simpl.
  by destruct (String.eqb_spec (Js.trim (stdout result)) "") as [|Htext];
    [|intros [= Hempty]].
Qed.

Lemma globalNodeModulesPaths_run (s : State) :
  ∃ outcome,
    globalNodeModulesPaths E s
    = (outcome,
       logs [EvSpawnSync "npm" ["root"; "-g"] shell_utf8;
             EvSpawnSync "pnpm" ["root"; "-g"] shell_utf8] s)
    ∧ match homedir E with
      | Some _ => ∃ globalPaths, outcome = Return globalPaths
      | None => outcome = Throw (SystemError "uv_os_homedir")
      end.
Proof.
  unfold globalNodeModulesPaths, shell_utf8. unfold mbind, M_bind, bind.
  destruct (safeSpawnSync_returns E "npm" ["root"; "-g"] s) as [npm ->].
  destruct (safeSpawnSync_returns E "pnpm" ["root"; "-g"]
              (logs [EvSpawnSync "npm" ["root"; "-g"]
                       {| shell := true; timeout := None; encoding := "utf8" |}] s))
    as [pnpm ->].
  rewrite os_homedir_run, logs_logs.
  destruct (homedir E) as [home|]; unfold mret, M_ret, ret; eauto.
Qed.

(** X2.  [globalNodeModulesPaths] starts [npm root -g] and then
    [pnpm root -g], each once, and nothing else.  With the home directory
    known, its result lists, in this order, npm's root if that query
    produced one, pnpm's root if that query produced one, and bun's
    directory under the home directory; no entry is empty.  With the home
    directory unknown it throws what [os.homedir] throws, after the two
    queries. *)
Theorem globalNodeModulesPaths_in_order (s : State) :
  ∃ npm pnpm,
    (safeSpawnSync E "npm" ["root"; "-g"] s).1 = Return npm
    ∧ (safeSpawnSync E "pnpm" ["root"; "-g"] s).1 = Return pnpm
    ∧ globalNodeModulesPaths E s
      = (match homedir E with
         | Some home =>
             let bun := resolve [home; ".bun/install/global/node_modules"] in
             Return (option_list npm ++ option_list pnpm
                     ++ (if String.eqb bun "" then [] else [bun]))
         | None => Throw (SystemError "uv_os_homedir")
         end,
         logs [EvSpawnSync "npm" ["root"; "-g"] shell_utf8;
               EvSpawnSync "pnpm" ["root"; "-g"] shell_utf8] s)
    ∧ npm ≠ Some "" ∧ pnpm ≠ Some "".
Proof.
  destruct (safeSpawnSync_returns E "npm" ["root"; "-g"] s) as [npm Hnpm].
  destruct (safeSpawnSync_returns E "pnpm" ["root"; "-g"]
              (logs [EvSpawnSync "npm" ["root"; "-g"] shell_utf8] s))
    as [pnpm Hpnpm].
  pose proof (safeSpawnSync_nonempty "npm" ["root"; "-g"] s) as Hn.
  pose proof (safeSpawnSync_nonempty "pnpm" ["root"; "-g"]
                (logs [EvSpawnSync "npm" ["root"; "-g"] shell_utf8] s)) as Hp.
  fold shell_utf8 in Hnpm, Hpnpm. rewrite Hnpm in Hn. rewrite Hpnpm in Hp.
  simpl in Hn, Hp.
  exists npm, pnpm. split; [by rewrite Hnpm|].
  split.
  { rewrite (safeSpawnSync_stateless _ _ s
               (logs [EvSpawnSync "npm" ["root"; "-g"] shell_utf8] s)).
    by rewrite Hpnpm. }
  split; [|split; congruence].
  unfold globalNodeModulesPaths. unfold mbind, M_bind, bind.
  rewrite Hnpm, Hpnpm, os_homedir_run, logs_logs.
  destruct (homedir E) as [home|]; [|done].
  unfold mret, M_ret, ret. f_equal. f_equal. cbv zeta.
  destruct npm as [a|], pnpm as [b|]; simpl;
    repeat match goal with
           | |- context [String.eqb ?x ""] =>
               destruct (String.eqb_spec x ""); try congruence
           end; done.
Qed.

End GlobalRoots.

(** ** More on the ancestor walk *)

Section WalkEdges.
Context `{PathModule} (E : Env).
Implicit Types (resolvedPath binaryName : string) (s : State).

(** X4.  A manifest that can be read but not parsed ends the walk where
    it was found: the parser's error propagates, no directory further
    out is read, and the error is neither of the two the function itself
    raises. *)
Theorem unparsable_manifest_stops_the_walk resolvedPath binaryName
    (n : nat) (rawContent : string) s :
  let dir := dirname resolvedPath in
  (∀ i, i ≤ n → ancestor i dir ≠ dirname (ancestor i dir)) →
  (∀ i, i < n → readFile E (manifest_of (ancestor i dir)) = None) →
  readFile E (manifest_of (ancestor n dir)) = Some rawContent →
  JSON_parse E rawContent = None →
  replaceTargetFromMainToBin E resolvedPath binaryName s
  = (Throw SyntaxError,
     logs (map (λ i, EvReadFile (manifest_of (ancestor i dir))) (seq 0 (S n))) s)
  ∧ SyntaxError ≠ no_bin_entry binaryName
  ∧ SyntaxError ≠ no_package_json binaryName.
Proof.
  intros dir Hbelow Hnone Hread Hparse.
  rewrite (replaceTarget_found E resolvedPath binaryName n rawContent s
             Hbelow Hnone Hread).
  by rewrite bin_from_manifest_unparsable.
Qed.

(** X5.  When no directory below the root, from the one holding the
    starting file upwards, has a readable [package.json], the function
    raises [Could not find package.json for "<binaryName>"], having tried
    the manifest of each of those directories once, innermost first. *)
Theorem missing_manifest_is_reported resolvedPath binaryName s :
  let dir := dirname resolvedPath in
  (∀ i, ancestor i dir ≠ dirname (ancestor i dir) →
        readFile E (manifest_of (ancestor i dir)) = None) →
  ∃ n,
    (∀ i, i < n → ancestor i dir ≠ dirname (ancestor i dir))
    ∧ ancestor n dir = dirname (ancestor n dir)
    ∧ replaceTargetFromMainToBin E resolvedPath binaryName s
      = (Throw (Error ("Could not find package.json for " +:+ dq +:+ binaryName +:+ dq)),
         logs (map (λ i, EvReadFile (manifest_of (ancestor i dir))) (seq 0 n)) s).
Proof.
  intros dir Hnone.
  destruct (reaches_root dir) as (n & Hbelow & Hroot).
  exists n. split; [done|]. split; [done|].
  apply replaceTarget_not_found; [done| |done].
  intros i Hi. apply Hnone, Hbelow, Hi.
Qed.

Lemma walk_bounded fuel : ∀ dir binaryName s,
  depth dir ≤ fuel →
  ∃ n, n ≤ depth dir
       ∧ (walk E fuel dir binaryName s).1 ≠ Diverge
       ∧ (walk E fuel dir binaryName s).2
         = logs (map (λ i, EvReadFile (manifest_of (ancestor i dir))) (seq 0 n)) s.
Proof.
  induction fuel as [|fuel IH]; intros dir binaryName s Hfuel;
    destruct (decide (dir = dirname dir)) as [Hroot|Hroot].
  - exists 0. rewrite walk_root by done. split; [lia|]. by rewrite logs_nil.
  - destruct (depth_step 0 dir Hroot Hfuel) as (? & ? & _). lia.
  - exists 0. rewrite walk_root by done. split; [lia|]. by rewrite logs_nil.
  - pose proof (dirname_depth dir (not_eq_sym Hroot)) as Hlt.
    destruct (depth_step (S fuel) dir Hroot Hfuel) as (fuel1 & [= <-] & Hfuel1).
    destruct (readFile E (manifest_of dir)) as [rawContent|] eqn:Hread.
    + exists 1. rewrite (walk_readable _ _ _ _ rawContent) by done.
      destruct (bin_from_manifest_settles E dir binaryName rawContent
                  (logs [EvReadFile (manifest_of dir)] s)) as [Hok ->].
      split; [lia|]. done.
    + rewrite walk_unreadable by done.
      destruct (IH (dirname dir) binaryName
                  (logs [EvReadFile (manifest_of dir)] s) Hfuel1)
        as (n & Hn & Hok & ->).
      exists (S n). split; [lia|]. split; [done|].
      rewrite logs_logs. f_equal. simpl. f_equal.
      by rewrite <- seq_shift, map_map.
Qed.

End WalkEdges.

(** X11.  On POSIX paths the walk always comes to an end: it returns or
    throws after reading at most one manifest per character of the
    starting directory, plus one; what it reads are the [package.json]
    files of successive ancestors, innermost first, and the memo of the
    workspace index is left as it was. *)
Theorem posix_walk_terminates (cwd : string) (E : Env)
    (resolvedPath binaryName : string) (s : State) :
  let P := posix cwd in
  let dir := Posix.posix_dirname resolvedPath in
  let run := @replaceTargetFromMainToBin P E resolvedPath binaryName s in
  ∃ n, n ≤ S (String.length dir)
       ∧ run.1 ≠ Diverge
       ∧ trace run.2
         = trace s ++ map (λ i, EvReadFile (Posix.posix_join
                                   [@ancestor P i dir; "package.json"])) (seq 0 n)
       ∧ cachedWorkspacePackageJsonNodeModules run.2
         = cachedWorkspacePackageJsonNodeModules s.
Proof.
  intros P dir run.
  destruct (@walk_bounded P E (@depth P dir) dir binaryName s (le_n _))
    as (n & Hn & Hok & Hstate).
  exists n. split.
  { etrans; [exact Hn|]. apply PosixFacts.posix_depth_le. }
  split; [exact Hok|]. subst run. unfold replaceTargetFromMainToBin.
  change (@dirname P resolvedPath) with dir. rewrite Hstate. by split.
Qed.

Module WalkScenarios.
Import Fixture.
#[local] Existing Instance node_path.

(** A package whose manifest is cut short. *)
Definition broken_manifest : Env :=
  host "linux" {[ "/ws/node_modules/oxlint/package.json" := "{" ]} ∅ ∅.

Lemma broken_manifest_raises_parse_error :
  replaceTargetFromMainToBin broken_manifest
    "/ws/node_modules/oxlint/dist/index.js" "oxlint" fresh
  = (Throw SyntaxError,
     logs [EvReadFile "/ws/node_modules/oxlint/dist/package.json";
           EvReadFile "/ws/node_modules/oxlint/package.json"] fresh).
Proof.
  refine (proj1 (unparsable_manifest_stops_the_walk broken_manifest
            "/ws/node_modules/oxlint/dist/index.js" "oxlint" 1 "{" fresh _ _ _ _)).
  - intros [|[|i]] Hi; [by vm_compute | by vm_compute | lia].
  - intros [|i] Hi; [by vm_compute | lia].
  - by vm_compute.
  - by vm_compute.
Defined.

(** The unit test "should throw when no package.json is found". *)
Lemma deep_directory_without_manifest :
  (replaceTargetFromMainToBin (host "linux" ∅ ∅ ∅)
     "/tmp/test-replace-1/a/b/c/index.js" "oxlint" fresh).1
  = Throw (Error ("Could not find package.json for " +:+ dq +:+ "oxlint" +:+ dq)).
Proof.
  destruct (missing_manifest_is_reported (host "linux" ∅ ∅ ∅)
              "/tmp/test-replace-1/a/b/c/index.js" "oxlint" fresh
              (λ i _, lookup_empty _))
    as (n & _ & _ & Hrun).
  exact (f_equal fst Hrun).
Defined.

End WalkScenarios.

(** ** More on the probe and the package locators *)

Section ProbeAlgebra.
Context `{PathModule} (E : Env).
Implicit Types (binaryName : string) (folders : list string) (s : State).

Lemma bin_candidates_app binaryName folders folders' :
  bin_candidates E binaryName (folders ++ folders')
  = bin_candidates E binaryName folders ++ bin_candidates E binaryName folders'.
Proof. unfold bin_candidates. apply flat_map_app. Qed.

Lemma find_app {A} (f : A → bool) (l l' : list A) :
  find f (l ++ l') = match find f l with Some x => Some x | None => find f l' end.
Proof. induction l as [|x l IH]; simpl; [done|]. by destruct (f x). Qed.

(** X6.  Probing two lists of folders one after the other is probing
    their concatenation: the result is the hit in the first list if
    there is one and the result for the second list otherwise, and the
    same existence checks are issued in the same order.  Probing no
    folder at all gives [undefined] without touching the file system. *)
Theorem probe_of_concatenation binaryName folders folders' s :
  let first := searchNodeModulesDefaultBinPath E binaryName folders s in
  let second := searchNodeModulesDefaultBinPath E binaryName folders' first.2 in
  let both := searchNodeModulesDefaultBinPath E binaryName (folders ++ folders') s in
  both.1 = match first.1 with
           | Return (Some candidate) => Return (Some candidate)
           | _ => second.1
           end
  ∧ both.2 = second.2
  ∧ searchNodeModulesDefaultBinPath E binaryName [] s = (Return None, s).
Proof.
  intros first second both. subst first second both.
  rewrite !searchNodeModulesDefaultBinPath_run. simpl.
  rewrite bin_candidates_app, find_app, map_app, logs_logs, logs_nil.
  split; [|done]. by destruct (find _ _).
Qed.

(** X10.  A path returned by the probe passed its existence check and is
    the shim [<folder>/.bin/<binaryName>] of one of the given folders,
    or, on Windows only, that shim with [.exe] appended. *)
Theorem probe_hit_is_an_existing_shim binaryName folders s candidate :
  (searchNodeModulesDefaultBinPath E binaryName folders s).1
  = Return (Some candidate) →
  stat E candidate = true
  ∧ ∃ folder, folder ∈ folders
      ∧ (candidate = join [folder; ".bin"; binaryName]
         ∨ platform E = "win32"
           ∧ candidate = join [folder; ".bin"; binaryName] +:+ ".exe").
Proof.
  rewrite searchNodeModulesDefaultBinPath_run. simpl. intros [= Hfind].
  apply find_some in Hfind as [Hin Hstat]. split; [done|].
  unfold bin_candidates in Hin. apply in_flat_map in Hin as (folder & Hfolder & Hin).
  exists folder. split; [by apply list_elem_of_In|].
  unfold is_win32 in Hin.
  destruct (String.eqb_spec (platform E) "win32") as [Hos|Hos]; simpl in Hin.
  - destruct Hin as [<- | [<- | []]]; auto.
  - destruct Hin as [<- | []]; auto.
Qed.

(** Events of the package locators other than a workspace search or a
    call of the settings validator. *)
Definition package_event (e : Event) : Prop :=
  match e with
  | EvFindFiles _ _ | EvValidate _ => False
  | _ => True
  end.

Lemma manifest_tier_events_are_package_events events :
  Forall manifest_tier_event events → Forall package_event events.
Proof. intros Hevents. eapply Forall_impl; [exact Hevents|]. by intros []. Qed.

(** X3.  The global locator first queries the global roots (two
    subprocesses), then runs its two tiers in order over those roots: a
    path from module resolution and the manifest is returned as it is;
    only when that tier throws are the roots probed, and the first
    existing candidate in root order, or [undefined], is the result.
    When the query of the roots throws, that error is the outcome and no
    tier runs.  The locator never searches the workspace, never calls the
    settings validator and leaves the memo of the workspace index as it
    was. *)
Theorem global_tiers_in_order binaryName s :
  ∃ roots s0,
    globalNodeModulesPaths E s = (roots, s0)
    ∧ let run := searchGlobalNodeModulesBin E binaryName s in
      match roots with
      | Return globalPaths =>
          let tier1 := manifest_tier E binaryName globalPaths s0 in
          let candidates := bin_candidates E binaryName globalPaths in
          (∀ resolvedPath, tier1.1 = Return resolvedPath →
             run = (Return (Some resolvedPath), tier1.2))
          ∧ (∀ e, tier1.1 = Throw e →
               run = (Return (find (stat E) candidates),
                      logs (map EvStat candidates) tier1.2))
      | Throw e => run = (Throw e, s0)
      | Diverge => False
      end
      ∧ cachedWorkspacePackageJsonNodeModules run.2
        = cachedWorkspacePackageJsonNodeModules s
      ∧ ∃ events, run.2 = logs events s ∧ Forall package_event events.
Proof.
  destruct (globalNodeModulesPaths_run E s) as (roots & Hpaths & Hroots).
  eexists _, _. split; [exact Hpaths|]. cbv zeta.
  destruct (homedir E) as [home|].
  - destruct Hroots as [globalPaths ->].
    rewrite (searchGlobalNodeModulesBin_run E binaryName s _ _ Hpaths).
    destruct (manifest_tier_settles E binaryName globalPaths
                (logs [EvSpawnSync "npm" ["root"; "-g"] shell_utf8;
                       EvSpawnSync "pnpm" ["root"; "-g"] shell_utf8] s))
      as [Hok (events & Hstate & Hevents)].
    apply manifest_tier_events_are_package_events in Hevents.
    destruct (manifest_tier _ _ _ _) as [[p|e|] s1]; simpl in *; [| |done]; subst s1.
    + split; [split; [by intros ? [= ->]|done]|]. split; [done|].
      eexists. rewrite logs_logs. split; [done|].
      by repeat (apply Forall_cons; split; [done|]).
    + split; [split; [done|by intros ? _]|]. split; [done|].
      eexists. rewrite !logs_logs. split; [done|].
      repeat (apply Forall_cons; split; [done|]).
      apply Forall_app. split; [done|]. by apply Forall_fmap, Forall_true.
  - subst roots.
    rewrite (searchGlobalNodeModulesBin_throws E binaryName s _ _ Hpaths).
    split; [done|]. split; [done|].
    eexists. split; [done|]. by repeat (apply Forall_cons; split; [done|]).
Qed.

End ProbeAlgebra.

Section ProjectLocator.
Context `{PathModule} (E : Env).
Implicit Types (binaryName : string) (s : State).

(** X7.  Once tier 1 has thrown, the two fallback tiers of the project
    locator act as a single probe: with the promise of the manifest index
    fulfilled, the result is that of probing the [node_modules]
    directories of the workspace roots followed by the directories of
    the index, so a shim in a workspace root always wins over one found
    through the index.  With that promise rejected, a shim in a workspace
    root is still returned, and the rejection is thrown when there is
    none.  Every path returned this way passed its existence check. *)
Theorem project_fallback_is_one_probe binaryName s (e : JsError) :
  let roots := default [] (workspaceFolders E) in
  let run := searchProjectNodeModulesBin E binaryName s in
  let direct := map (λ folder, join [folder; "node_modules"]) roots in
  (manifest_tier E binaryName roots s).1 = Throw e →
  match index_promise E s with
  | Fulfilled dirs =>
      run.1 = (searchNodeModulesDefaultBinPath E binaryName (direct ++ dirs) s).1
  | Rejected reason =>
      ∃ hit,
        (searchNodeModulesDefaultBinPath E binaryName direct s).1 = Return hit
        ∧ run.1 = match hit with
                  | Some candidate => Return (Some candidate)
                  | None => Throw reason
                  end
  end
  ∧ ∀ resolvedPath, run.1 = Return (Some resolvedPath) → stat E resolvedPath = true.
Proof.
  intros roots run direct Htier. subst run.
  rewrite searchProjectNodeModulesBin_outcome.
  unfold workspace_node_modules, workspace_roots. fold roots. fold direct.
  rewrite Htier.
  destruct (find (stat E) (bin_candidates E binaryName direct))
    as [candidate|] eqn:Hdirect.
  - split.
    + destruct (index_promise E s) as [dirs|reason].
      * rewrite searchNodeModulesDefaultBinPath_run, bin_candidates_app, find_app.
        simpl. by rewrite Hdirect.
      * exists (Some candidate). rewrite searchNodeModulesDefaultBinPath_run.
        simpl. by rewrite Hdirect.
    + intros ? [= <-]. by apply find_some in Hdirect as [_ ?].
  - destruct (index_promise E s) as [dirs|reason].
    + rewrite searchNodeModulesDefaultBinPath_run, bin_candidates_app, find_app.
      simpl. rewrite Hdirect. split; [done|].
      intros p [= Hfind]. by apply find_some in Hfind as [_ ?].
    + split; [|done]. exists None. rewrite searchNodeModulesDefaultBinPath_run.
      simpl. by rewrite Hdirect.
Qed.

(** A call of [workspace.findFiles]. *)
Definition workspace_search (e : Event) : Prop :=
  match e with
  | EvFindFiles _ _ => True
  | _ => False
  end.

(** X8.  The project locator never refreshes a filled index: when the
    memo is filled before the call, the call issues no workspace search
    and leaves the memo as it is, whether the promise it holds was
    fulfilled or rejected.  When the memo is empty, the call either
    leaves it empty without searching, or fills it with the promise of
    one search of the workspace. *)
Theorem project_locator_keeps_the_memo binaryName s :
  let run := searchProjectNodeModulesBin E binaryName s in
  let searched := search_manifests E "**/package.json" "**/node_modules/**" in
  ∃ events,
    trace run.2 = trace s ++ events
    ∧ (∀ promise, cachedWorkspacePackageJsonNodeModules s = Some promise →
         cachedWorkspacePackageJsonNodeModules run.2 = Some promise
         ∧ Forall (λ e, ¬ workspace_search e) events)
    ∧ (cachedWorkspacePackageJsonNodeModules s = None →
         (cachedWorkspacePackageJsonNodeModules run.2 = None
          ∧ Forall (λ e, ¬ workspace_search e) events)
         ∨ (cachedWorkspacePackageJsonNodeModules run.2 = Some searched
            ∧ ∃ before after,
                events = before ++ EvFindFiles "**/package.json" "**/node_modules/**"
                                   :: after
                ∧ Forall (λ e, ¬ workspace_search e) (before ++ after))).
Proof.
  intros run searched. subst run.
  assert (∀ paths, Forall (λ e, ¬ workspace_search e) (map EvStat paths)) as Hstats
    by (intros paths; apply Forall_fmap, Forall_true; intros ? []).
  rewrite searchProjectNodeModulesBin_run.
  destruct (manifest_tier_settles E binaryName (workspace_roots E) s)
    as [Hok (events1 & Hstate & Hevents)].
  assert (Forall (λ e, ¬ workspace_search e) events1) as Hquiet.
  { eapply Forall_impl; [exact Hevents|]. by intros [] ? ?. }
  destruct (manifest_tier E binaryName (workspace_roots E) s) as [[p|e|] s1];
    simpl in Hstate, Hok; [| |done]; subst s1.
  { exists events1. split; [done|]. split.
    - intros promise Hmemo. split; [exact Hmemo | done].
    - intros Hmemo. left. split; [exact Hmemo | done]. }
  cbv zeta.
  destruct (find (stat E) _) as [candidate|].
  { eexists. simpl. rewrite <- app_assoc. split; [done|]. split.
    - intros promise Hmemo. split; [exact Hmemo | by apply Forall_app].
    - intros Hmemo. left. split; [exact Hmemo | by apply Forall_app]. }
  unfold getWorkspacePackageJsonNodeModules. simpl.
  destruct (cachedWorkspacePackageJsonNodeModules s) as [promise|] eqn:Hmemo; simpl.
  - destruct promise as [dirs|reason]; simpl.
    all: eexists; rewrite <- ?app_assoc; (split; [done|]); (split; [|done]).
    all: intros ? [= <-]; (split; [exact Hmemo|]).
    all: apply Forall_app; (split; [done|]); try done; by apply Forall_app.
  - fold searched. destruct searched as [dirs|reason]; simpl.
    + eexists. rewrite <- !app_assoc. split; [done|]. split; [done|].
      intros _. right. split; [done|].
      exists (events1 ++ map EvStat
                (bin_candidates E binaryName (workspace_node_modules E))),
             (map EvStat (bin_candidates E binaryName dirs)).
      rewrite <- !app_assoc. split; [done|].
      apply Forall_app. split; [done|]. apply Forall_app. split; [done|]. done.
    + eexists. rewrite <- !app_assoc. split; [done|]. split; [done|].
      intros _. right. split; [done|].
      exists (events1 ++ map EvStat
                (bin_candidates E binaryName (workspace_node_modules E))), [].
      rewrite <- !app_assoc, app_nil_r. split; [done|].
      apply Forall_app. split; [done|]. done.
Qed.

End ProjectLocator.

(** ** Which errors leave the locators *)

Section LocatorOutcomes.
Context `{PathModule} (E : Env).
Implicit Types (binaryName settingsBinary : string) (s : State).

Lemma searchSettingsBin_target_missing settingsBinary s :
  (∀ target, settings_target E settingsBinary = Some target →
     stat E target = false ∧ stat E (target +:+ ".exe") = false) →
  (searchSettingsBin E settingsBinary s).1 = Return None.
Proof.
  intros Hnone. unfold searchSettingsBin.
  destruct (isTrusted E); simpl; [|done].
  unfold validate. unfold_monad.
  destruct (validateSafeBinaryPath E settingsBinary); simpl; [|done].
  destruct (settings_target E settingsBinary) as [target|]; [|done].
  destruct (Hnone target eq_refl) as [Hplain Hexe].
  rewrite path_exists_run, Hplain.
  destruct (is_win32 E); [|done].
  destruct (Js.endsWith target ".exe"); simpl;
    by rewrite path_exists_run, ?Hplain, ?Hexe.
Qed.

Lemma searchGlobalNodeModulesBin_outcome binaryName s e :
  (searchGlobalNodeModulesBin E binaryName s).1 = Throw e
  ↔ homedir E = None ∧ e = SystemError "uv_os_homedir".
Proof.
  destruct (homedir E) as [home|] eqn:Hhome.
  - destruct (searchGlobalNodeModulesBin_returns E binaryName s)
      as (result & s' & ->); [by rewrite Hhome|].
    split; [done|]. by intros [? _].
  - destruct (globalNodeModulesPaths_throws E s Hhome) as [s0 Hpaths].
    rewrite (searchGlobalNodeModulesBin_throws E binaryName s _ _ Hpaths). simpl.
    split; [by intros [= <-]|]. by intros [_ ->].
Qed.

(** X13.  Which errors leave the locators.  The project locator raises
    exactly when its first tier has thrown, no shim exists in a workspace
    root and the promise of the manifest index is rejected, and it raises
    that rejection.  The global locator raises exactly when the home
    directory cannot be determined, and it raises that error.  Neither
    fails to settle, and the settings locator always returns.  For a name
    no package answers to, the project locator returns [undefined]
    whenever the index is not rejected, and the global locator whenever
    the home directory is known; the settings locator returns
    [undefined] when neither the path it derives from the setting nor
    that path with [.exe] appended exists. *)
Theorem locators_raise_only_on_host_failures (s : State) :
  let roots := default [] (workspaceFolders E) in
  let direct binaryName :=
    bin_candidates E binaryName (map (λ folder, join [folder; "node_modules"]) roots) in
  (∀ binaryName e,
     (searchProjectNodeModulesBin E binaryName s).1 = Throw e
     ↔ (∃ e1, (manifest_tier E binaryName roots s).1 = Throw e1)
       ∧ find (stat E) (direct binaryName) = None
       ∧ index_promise E s = Rejected e)
  ∧ (∀ binaryName e,
       (searchGlobalNodeModulesBin E binaryName s).1 = Throw e
       ↔ homedir E = None ∧ e = SystemError "uv_os_homedir")
  ∧ (∀ binaryName,
       (searchProjectNodeModulesBin E binaryName s).1 ≠ Diverge
       ∧ (searchGlobalNodeModulesBin E binaryName s).1 ≠ Diverge)
  ∧ (∀ settingsBinary, ∃ result s',
       searchSettingsBin E settingsBinary s = (Return result, s'))
  ∧ (∀ binaryName, unreachable E binaryName →
       ((∀ reason, index_promise E s ≠ Rejected reason) →
        (searchProjectNodeModulesBin E binaryName s).1 = Return None)
       ∧ (is_Some (homedir E) →
          (searchGlobalNodeModulesBin E binaryName s).1 = Return None))
  ∧ (∀ settingsBinary,
       (∀ target, settings_target E settingsBinary = Some target →
          stat E target = false ∧ stat E (target +:+ ".exe") = false) →
       (searchSettingsBin E settingsBinary s).1 = Return None).
Proof.
  intros roots direct.
  assert (∀ binaryName,
    (searchProjectNodeModulesBin E binaryName s).1
    = match (manifest_tier E binaryName roots s).1 with
      | Return resolvedPath => Return (Some resolvedPath)
      | Throw _ =>
          match find (stat E) (direct binaryName) with
          | Some candidate => Return (Some candidate)
          | None =>
              match index_promise E s with
              | Fulfilled dirs =>
                  Return (find (stat E) (bin_candidates E binaryName dirs))
              | Rejected reason => Throw reason
              end
          end
      | Diverge => Diverge
      end) as Hproject
    by (intros binaryName; apply searchProjectNodeModulesBin_outcome).
  split; [|split; [|split; [|split; [|split]]]].
  - intros binaryName e. rewrite Hproject.
    destruct (manifest_tier E binaryName roots s).1 as [p|e1|].
    + split; [done|]. by intros [[? ?] _].
    + destruct (find (stat E) (direct binaryName)) as [candidate|].
      { split; [done|]. by intros (_ & ? & _). }
      destruct (index_promise E s) as [dirs|reason].
      { split; [done|]. by intros (_ & _ & ?). }
      split; [intros [= <-]; eauto|]. by intros (_ & _ & [= <-]).
    + split; [done|]. by intros [[? ?] _].
  - intros binaryName e. apply searchGlobalNodeModulesBin_outcome.
  - intros binaryName. split.
    + rewrite Hproject.
      destruct (manifest_tier_settles E binaryName roots s) as [Hok _].
      destruct (manifest_tier E binaryName roots s).1 as [p|e1|]; [done| |done].
      destruct (find (stat E) (direct binaryName)); [done|].
      by destruct (index_promise E s).
    + destruct (homedir E) as [home|] eqn:Hhome.
      * destruct (searchGlobalNodeModulesBin_returns E binaryName s)
          as (result & s' & ->); [by rewrite Hhome|done].
      * destruct (globalNodeModulesPaths_throws E s Hhome) as [s0 Hpaths].
        by rewrite (searchGlobalNodeModulesBin_throws E binaryName s _ _ Hpaths).
  - intros settingsBinary. apply searchSettingsBin_returns.
  - intros binaryName Hun. split.
    + intros Hindex. rewrite Hproject.
      pose proof (unreachable_manifest_tier E binaryName roots s) as Htier.
      destruct (manifest_tier_settles E binaryName roots s) as [Hok _].
      destruct (manifest_tier E binaryName roots s).1 as [p|e1|];
        [by destruct (Htier p Hun)| |done].
      unfold direct. rewrite unreachable_probe by done.
      destruct (index_promise E s) as [dirs|reason]; [|by destruct (Hindex reason)].
      by rewrite unreachable_probe.
    + by apply searchGlobalNodeModulesBin_unreachable.
  - intros settingsBinary. apply searchSettingsBin_target_missing.
Qed.

End LocatorOutcomes.

(** ** More on the settings locator *)

Module SuffixFacts.
Import StringFacts.

Lemma length_append (a b : string) :
  String.length (a +:+ b) = String.length a + String.length b.
Proof. induction a as [|c a IH]; [done|]. rewrite append_cons. simpl. by rewrite IH. Qed.

Lemma substring_all (b : string) : String.substring 0 (String.length b) b = b.
Proof. induction b as [|c b IH]; [done|]. simpl. by rewrite IH. Qed.

Lemma substring_suffix (a b : string) :
  String.substring (String.length a) (String.length b) (a +:+ b) = b.
Proof.
  induction a as [|c a IH]; [apply substring_all|]. by rewrite append_cons.
Qed.

Lemma substring_prefix (a b : string) :
  String.substring 0 (String.length a) (a +:+ b) = a.
Proof.
  induction a as [|c a IH]; [by destruct b|]. rewrite append_cons. simpl.
  by rewrite IH.
Qed.

(** [(a + b).endsWith(b)] *)
Lemma endsWith_append (a b : string) : Js.endsWith (a +:+ b) b = true.
Proof.
  unfold Js.endsWith. rewrite length_append.
  replace (String.length a + String.length b - String.length b)
    with (String.length a) by lia.
  rewrite substring_suffix, String.eqb_refl.
  by rewrite andb_true_r, Nat.leb_le; lia.
Qed.

(** [(a + b).slice(0, -b.length)] is [a]. *)
Lemma slice_to_minus_append (a b : string) :
  Js.slice_to_minus (String.length b) (a +:+ b) = a.
Proof.
  unfold Js.slice_to_minus. rewrite length_append.
  replace (String.length a + String.length b - String.length b)
    with (String.length a) by lia.
  apply substring_prefix.
Qed.

End SuffixFacts.

Section SettingsInvariants.
Context `{PathModule} (E : Env).

(** X9.  Whatever the setting, the settings locator issues at most two
    existence checks (at most one off Windows), and none unless the
    workspace is trusted and the validator accepted the raw setting; the
    validator is called exactly when the workspace is trusted, before
    any check.  A returned path is the one checked last, and that check
    succeeded.  The memo of the workspace index is never touched. *)
Theorem settings_locator_checks_after_clearance (settingsBinary : string)
    (s : State) :
  let run := searchSettingsBin E settingsBinary s in
  ∃ checks,
    run.2 = logs (if isTrusted E
                  then EvValidate settingsBinary :: map EvStat checks else []) s
    ∧ length checks ≤ 2
    ∧ (platform E ≠ "win32" → length checks ≤ 1)
    ∧ (checks ≠ [] →
       isTrusted E = true ∧ validateSafeBinaryPath E settingsBinary = true)
    ∧ (∀ resolvedPath, run.1 = Return (Some resolvedPath) →
         last checks = Some resolvedPath ∧ stat E resolvedPath = true).
Proof.
  intros run. subst run. unfold searchSettingsBin.
  destruct (isTrusted E) eqn:Htrusted; simpl.
  2: { exists []. rewrite logs_nil.
       repeat split; simpl; intros; simplify_eq/=; (lia || done). }
  unfold validate. unfold_monad. simpl. rewrite log_logs.
  destruct (validateSafeBinaryPath E settingsBinary) eqn:Hsafe; simpl.
  2: { exists []. repeat split; simpl; intros; simplify_eq/=; (lia || done). }
  destruct (settings_target E settingsBinary) as [target|].
  2: { exists []. repeat split; simpl; intros; simplify_eq/=; (lia || done). }
  rewrite path_exists_run, logs_logs.
  destruct (stat E target) eqn:Hfirst.
  { exists [target]. repeat split; simpl; intros; simplify_eq/=; (lia || done). }
  destruct (is_win32 E) eqn:Hos.
  2: { exists [target]. repeat split; simpl; intros; simplify_eq/=; (lia || done). }
  rewrite path_exists_run, logs_logs.
  set (retried := if negb (Js.endsWith target ".exe") then target +:+ ".exe" else target).
  exists [target; retried]. split; [by destruct (stat E retried)|].
  split; [simpl; lia|]. split.
  { intros Hne. by rewrite is_win32_false in Hos. }
  split; [done|].
  destruct (stat E retried) eqn:Hsecond; [|done]. by intros ? [= <-].
Qed.

(** X12.  Off Windows a setting whose anchored path is [<stem>.exe] is
    looked up as [<stem>]: one existence check, of [<stem>] exactly, whose
    outcome decides the result; [<stem>.exe] itself is never checked. *)
Theorem exe_suffix_is_dropped_off_windows (settingsBinary stem : string)
    (s : State) :
  platform E ≠ "win32" →
  isTrusted E = true →
  validateSafeBinaryPath E settingsBinary = true →
  Anchored E settingsBinary (stem +:+ ".exe") →
  searchSettingsBin E settingsBinary s
  = (Return (if stat E stem then Some stem else None),
     logs [EvValidate settingsBinary; EvStat stem] s).
Proof.
  intros Hos Htrusted Hsafe Hanchored.
  assert (settings_target E settingsBinary = Some stem) as Htarget.
  { assert (Js.slice_to_minus 4 (stem +:+ ".exe") = stem) as Hcut
      by apply (SuffixFacts.slice_to_minus_append stem ".exe").
    rewrite <- Hcut.
    apply (settings_target_checked E _ (stem +:+ ".exe")); [done|].
    apply checked_stripped; [done | apply SuffixFacts.endsWith_append]. }
  unfold searchSettingsBin. rewrite Htrusted. unfold validate. unfold_monad.
  simpl. rewrite Hsafe, Htarget. simpl.
  rewrite path_exists_run, log_logs, logs_logs, is_win32_false by done.
  by destruct (stat E stem).
Qed.

End SettingsInvariants.

Module MoreScenarios.
Import Fixture.
#[local] Existing Instance node_path.

(** With a shim in the second package only, and module resolution
    failing, the project locator of the monorepo test finds it through
    the manifest index. *)
Lemma monorepo_shim_is_found_and_exists :
  (searchProjectNodeModulesBin monorepo "fallback-nested-bin-lookup-test" fresh).1
  = Return (Some "/ws/packages/nested-app/node_modules/.bin/fallback-nested-bin-lookup-test")
  ∧ stat monorepo
      "/ws/packages/nested-app/node_modules/.bin/fallback-nested-bin-lookup-test"
    = true.
Proof.
  destruct (project_fallback_is_one_probe monorepo "fallback-nested-bin-lookup-test"
              fresh (ModuleNotFound "fallback-nested-bin-lookup-test") eq_refl)
    as [Hrun Hexists].
  split; [exact Hrun | exact (Hexists _ Hrun)].
Defined.

(** On the Windows host with two packages, the hit is the [.exe] shim of
    the first folder. *)
Lemma first_folder_exe_shim :
  stat two_installs "/ws/a/node_modules/.bin/oxlint.exe" = true
  ∧ ∃ folder, folder ∈ ["/ws/a/node_modules"; "/ws/b/node_modules"]
      ∧ ("/ws/a/node_modules/.bin/oxlint.exe" = join [folder; ".bin"; "oxlint"]
         ∨ platform two_installs = "win32"
           ∧ "/ws/a/node_modules/.bin/oxlint.exe"
             = join [folder; ".bin"; "oxlint"] +:+ ".exe").
Proof.
  exact (probe_hit_is_an_existing_shim two_installs "oxlint"
           ["/ws/a/node_modules"; "/ws/b/node_modules"] fresh
           "/ws/a/node_modules/.bin/oxlint.exe" eq_refl).
Defined.

(** The relative setting [node_modules/.bin/oxlint.exe] on Linux. *)
Lemma windows_style_setting_on_linux :
  searchSettingsBin shim_in_workspace "node_modules/.bin/oxlint.exe" fresh
  = (Return (Some "/ws/node_modules/.bin/oxlint"),
     logs [EvValidate "node_modules/.bin/oxlint.exe";
           EvStat "/ws/node_modules/.bin/oxlint"] fresh).
Proof.
  exact (exe_suffix_is_dropped_off_windows shim_in_workspace
           "node_modules/.bin/oxlint.exe" "/ws/node_modules/.bin/oxlint" fresh
           ltac:(discriminate) eq_refl eq_refl
           (anchored_relative shim_in_workspace "node_modules/.bin/oxlint.exe" "/ws"
              eq_refl eq_refl ltac:(discriminate))).
Defined.

End MoreScenarios.
